(** * Shallow embedding of schedule_generator.py (CP-SAT schedule builder)

    The constraint model built by [ScheduleGenerator] is embedded as a
    value: a list of decision variables, a list of linear constraints,
    a penalty list and an optional objective.  The CP-SAT backend is an
    oracle; an assignment it returns on OPTIMAL/FEASIBLE is accepted when
    it satisfies every constraint of the model. *)

From Stdlib Require Import String List ZArith Lia Bool.
From stdpp Require Import gmap strings list.
Import ListNotations.
Open Scope Z_scope.

(* ------------------------------------------------------------------ *)
(** ** Work codes and shift types (class WorkCode, class ShiftType) *)

Module WorkCode.
Definition EMPTY : string := "".
Definition Z : string := "Z".
Definition HC : string := "HC".
Definition IA : string := "IA".
Definition R : string := "R".
Definition RQ : string := "RQ".
Definition ZT : string := "ZT".
Definition HCT : string := "HCT".
Definition IAT : string := "IAT".
Definition DT : string := "DT".
End WorkCode.

Module ShiftType.
Definition OFF : nat := 0.
Definition AM : nat := 1.
Definition PM_HC : nat := 2.
Definition PM_IA : nat := 3.
End ShiftType.

(** Python [code in [a, b]] on strings. *)
Definition str_in (c : string) (l : list string) : bool :=
  existsb (String.eqb c) l.

(* ------------------------------------------------------------------ *)
(** ** Input data *)

Record ContinuousWorkLimit := {
  cwl_am : Z;
  cwl_pm : Z;
  cwl_total : Z
}.

(** [option]; [targetMonth] "YYYY-MM" is kept as its parsed pair
    [map(int, target_month.split("-"))]. *)
Record ScheduleOption := {
  dayOffIndividual : gmap string Z;
  dayOffStream : string;
  workCodeAverage : string;
  continuousWorkLimit : ContinuousWorkLimit;
  targetYear : Z;
  targetMonth : Z;
  reducedStaffingDays : list Z
}.

Record MemberSchedule := {
  name : string;
  days : list string
}.

Record InputData := {
  schedule : list MemberSchedule;
  input_option : ScheduleOption
}.

Definition default_member : MemberSchedule := {| name := ""; days := [] |}.

(* ------------------------------------------------------------------ *)
(** ** Calendar: Python's datetime proleptic Gregorian ordinal *)

Definition is_leap (y : Z) : bool :=
  (Z.eqb (y mod 4) 0 && negb (Z.eqb (y mod 100) 0)) || Z.eqb (y mod 400) 0.

(** datetime._DAYS_BEFORE_MONTH and _days_before_month *)
Definition DAYS_BEFORE_MONTH (m : Z) : Z :=
  match m with
  | 1 => 0 | 2 => 31 | 3 => 59 | 4 => 90 | 5 => 120 | 6 => 151
  | 7 => 181 | 8 => 212 | 9 => 243 | 10 => 273 | 11 => 304 | 12 => 334
  | _ => -1
  end.

Definition days_before_month (y m : Z) : Z :=
  DAYS_BEFORE_MONTH m + (if (2 <? m) && is_leap y then 1 else 0).

Definition days_before_year (y : Z) : Z :=
  let y1 := y - 1 in y1 * 365 + y1 / 4 - y1 / 100 + y1 / 400.

(** datetime(y, m, d).toordinal() *)
Definition toordinal (y m d : Z) : Z :=
  days_before_year y + days_before_month y m + d.

Definition option_of (inp : InputData) : ScheduleOption := input_option inp.

(** _get_days_in_month *)
Definition get_days_in_month (inp : InputData) : nat :=
  let year := targetYear (option_of inp) in
  let month := targetMonth (option_of inp) in
  let next_month :=
    if Z.eqb month 12 then toordinal (year + 1) 1 1
    else toordinal year (month + 1) 1 in
  let last_day := toordinal year month 1 in
  Z.to_nat (next_month - last_day).

(** _get_day_of_week: 0 = Sunday, ..., 6 = Saturday *)
Definition get_day_of_week (inp : InputData) (day_index : nat) : Z :=
  let year := targetYear (option_of inp) in
  let month := targetMonth (option_of inp) in
  let ord := toordinal year month (Z.of_nat day_index + 1) in
  let weekday := (ord + 6) mod 7 in
  (weekday + 1) mod 7.

Definition num_members (inp : InputData) : nat := length (schedule inp).
Definition num_days (inp : InputData) : nat := get_days_in_month inp.
Definition member (inp : InputData) (m : nat) : MemberSchedule :=
  nth m (schedule inp) default_member.
Definition reduced_staffing_days (inp : InputData) : list Z :=
  reducedStaffingDays (option_of inp).

(* ------------------------------------------------------------------ *)
(** ** Decision variables, linear expressions, constraints *)

Inductive var :=
| shift (m d s : nat)              (* shift_m{m}_d{d}_s{s} *)
| consecutive_off (m d : nat).     (* consecutive_off_m{m}_d{d} *)

Record linexpr := { terms : list (Z * var); const : Z }.

Definition lconst (c : Z) : linexpr := {| terms := []; const := c |}.
Definition lvar (v : var) : linexpr := {| terms := [(1, v)]; const := 0 |}.
Definition ladd (e1 e2 : linexpr) : linexpr :=
  {| terms := terms e1 ++ terms e2; const := const e1 + const e2 |}.
Definition lscale (k : Z) (e : linexpr) : linexpr :=
  {| terms := map (fun '(c, v) => (k * c, v)) (terms e); const := k * const e |}.
Definition lsub (e : linexpr) (c : Z) : linexpr := ladd e (lconst (- c)).
(** Python's built-in [sum]: ((0 + x1) + x2) + ... *)
Definition lsum (l : list linexpr) : linexpr := fold_left ladd l (lconst 0).

Inductive literal := Pos (v : var) | Neg (v : var).

Inductive constr :=
| CEq (e : linexpr) (rhs : Z)
| CLe (e : linexpr) (rhs : Z)
| CLt (e : linexpr) (rhs : Z)
| CEnforce (c : constr) (l : literal).   (* Add(c).OnlyEnforceIf(l) *)

(** A solver assignment: every variable of the model is a BoolVar. *)
Definition assignment := var -> bool.

Definition eval (a : assignment) (e : linexpr) : Z :=
  fold_right (fun '(k, v) acc => k * Z.b2z (a v) + acc) (const e) (terms e).

Definition lit_val (a : assignment) (l : literal) : bool :=
  match l with Pos v => a v | Neg v => negb (a v) end.

Fixpoint holds (a : assignment) (c : constr) : bool :=
  match c with
  | CEq e r => Z.eqb (eval a e) r
  | CLe e r => Z.leb (eval a e) r
  | CLt e r => Z.ltb (eval a e) r
  | CEnforce c l => implb (lit_val a l) (holds a c)
  end.

(** The model under construction ([self.model], [self.penalties]). *)
Record CpModel := {
  model_vars : list var;
  model_constraints : list constr;
  penalties : list (Z * var);
  objective : option linexpr      (* Minimize(...) *)
}.

Definition empty_model : CpModel :=
  {| model_vars := []; model_constraints := []; penalties := []; objective := None |}.

Definition add_constraints (cs : list constr) (st : CpModel) : CpModel :=
  {| model_vars := model_vars st; model_constraints := model_constraints st ++ cs;
     penalties := penalties st; objective := objective st |}.

Definition accepted (a : assignment) (st : CpModel) : bool :=
  forallb (holds a) (model_constraints st).

(* ------------------------------------------------------------------ *)
(** ** The builder steps of [generate] *)

Section Builder.
Variable inp : InputData.

Let nm := num_members inp.
Let nd := num_days inp.

(** _create_variables *)
Definition create_variables (st : CpModel) : CpModel :=
  {| model_vars := model_vars st ++
       flat_map (fun m => flat_map (fun d => map (fun s => shift m d s) (seq 0 4))
                                   (seq 0 nd)) (seq 0 nm);
     model_constraints := model_constraints st;
     penalties := penalties st; objective := objective st |}.

(** _add_basic_constraints: one category per (member, day) *)
Definition basic_constraint (m d : nat) : constr :=
  CEq (lsum (map (fun s => lvar (shift m d s)) (seq 0 4))) 1.

Definition basic_constraints : list constr :=
  flat_map (fun m => map (fun d => basic_constraint m d) (seq 0 nd)) (seq 0 nm).

(** _add_predefined_schedule_constraints: the if/elif chain on one code *)
Definition pin_code (m d : nat) (code : string) : list constr :=
  if String.eqb code WorkCode.EMPTY then []
  else if str_in code [WorkCode.RQ; WorkCode.R] then
    [CEq (lvar (shift m d ShiftType.OFF)) 1]
  else if str_in code [WorkCode.Z; WorkCode.ZT] then
    [CEq (lvar (shift m d ShiftType.AM)) 1]
  else if str_in code [WorkCode.HC; WorkCode.HCT] then
    [CEq (lvar (shift m d ShiftType.PM_HC)) 1]
  else if str_in code [WorkCode.IA; WorkCode.IAT] then
    [CEq (lvar (shift m d ShiftType.PM_IA)) 1]
  else if String.eqb code WorkCode.DT then
    [CEq (lvar (shift m d ShiftType.OFF)) 1]
  else [].

(** [for d, code in enumerate(days): if d >= num_days: break ...] *)
Fixpoint predefined_loop (m d : nat) (ds : list string) : list constr :=
  match ds with
  | [] => []
  | code :: rest =>
      if Nat.leb nd d then []
      else pin_code m d code ++ predefined_loop m (S d) rest
  end.

Definition predefined_constraints : list constr :=
  flat_map (fun m => predefined_loop m 0 (days (member inp m))) (seq 0 nm).

(** _add_daily_staffing_constraints *)
Definition count_code (acc : Z * Z * Z * Z) (code : string) : Z * Z * Z * Z :=
  let '(zt_count, z_count, hct_iat_count, hc_ia_count) := acc in
  if String.eqb code WorkCode.ZT then (zt_count + 1, z_count, hct_iat_count, hc_ia_count)
  else if String.eqb code WorkCode.Z then (zt_count, z_count + 1, hct_iat_count, hc_ia_count)
  else if str_in code [WorkCode.HCT; WorkCode.IAT] then
    (zt_count, z_count, hct_iat_count + 1, hc_ia_count)
  else if str_in code [WorkCode.HC; WorkCode.IA] then
    (zt_count, z_count, hct_iat_count, hc_ia_count + 1)
  else acc.

Definition day_counts (d : nat) : Z * Z * Z * Z :=
  fold_left (fun acc member_schedule =>
               match days member_schedule !! d with
               | None => acc                      (* d >= len(days): continue *)
               | Some code => count_code acc code
               end) (schedule inp) (0, 0, 0, 0).

Definition is_reduced_day (d : nat) : bool :=
  existsb (Z.eqb (get_day_of_week inp d)) (reduced_staffing_days inp).

Definition am_total (d : nat) : linexpr :=
  lsum (map (fun m => lvar (shift m d ShiftType.AM)) (seq 0 nm)).

Definition pm_total (d : nat) : linexpr :=
  lsum (map (fun m => ladd (lvar (shift m d ShiftType.PM_HC))
                           (lvar (shift m d ShiftType.PM_IA))) (seq 0 nm)).

(** [(total - half) * 2 + half == rhs] *)
Definition doubled (total : linexpr) (half : Z) : linexpr :=
  ladd (lscale 2 (lsub total half)) (lconst half).

Definition am_staffing_constraint (d : nat) : constr :=
  let '(zt_count, _, _, _) := day_counts d in
  if is_reduced_day d then
    (if 0 <? zt_count then CEq (doubled (am_total d) zt_count) 2
     else CEq (am_total d) 1)
  else
    (if 0 <? zt_count then CEq (doubled (am_total d) zt_count) 2
     else CEq (am_total d) 1).

Definition pm_staffing_constraint (d : nat) : constr :=
  let '(_, _, hct_iat_count, _) := day_counts d in
  if is_reduced_day d then
    (if 0 <? hct_iat_count then CEq (doubled (pm_total d) hct_iat_count) 2
     else CEq (pm_total d) 1)
  else
    (if 0 <? hct_iat_count then CEq (doubled (pm_total d) hct_iat_count) 4
     else CEq (pm_total d) 2).

Definition daily_staffing_constraints : list constr :=
  flat_map (fun d => [am_staffing_constraint d; pm_staffing_constraint d]) (seq 0 nd).

(** _add_dayoff_constraints: [dayOffIndividual.get(member_name, 0)] *)
Definition target_dayoff (m : nat) : Z :=
  default 0 (dayOffIndividual (option_of inp) !! name (member inp m)).

Definition off_count (m : nat) : linexpr :=
  lsum (map (fun d => lvar (shift m d ShiftType.OFF)) (seq 0 nd)).

Definition dayoff_constraints : list constr :=
  map (fun m => CEq (off_count m) (target_dayoff m)) (seq 0 nm).

(** _add_rq_adjacent_constraints *)
Definition rq_adjacent (m d : nat) : list constr :=
  let ds := days (member inp m) in
  match ds !! d with
  | None => []                                     (* d >= len(days) *)
  | Some code =>
      if String.eqb code WorkCode.RQ then
        (if Nat.ltb 0 d &&
            match ds !! (d - 1)%nat with
            | Some c => String.eqb c WorkCode.EMPTY | None => false end
         then [CEq (lvar (shift m (d - 1) ShiftType.OFF)) 0] else [])
        ++
        (if Nat.ltb d (nd - 1) &&
            (Nat.leb (length ds) (S d) ||
             match ds !! (S d) with
             | Some c => String.eqb c WorkCode.EMPTY | None => false end)
         then [CEq (lvar (shift m (S d) ShiftType.OFF)) 0] else [])
      else []
  end.

Definition rq_adjacent_constraints : list constr :=
  flat_map (fun m => flat_map (fun d => rq_adjacent m d) (seq 0 nd)) (seq 0 nm).

(** _add_pm_to_am_constraints *)
Definition pm_to_am_constraint (m d : nat) : constr :=
  let pm_today := ladd (lvar (shift m d ShiftType.PM_HC)) (lvar (shift m d ShiftType.PM_IA)) in
  let am_tomorrow := lvar (shift m (S d) ShiftType.AM) in
  CLe (ladd pm_today am_tomorrow) 1.

Definition pm_to_am_constraints : list constr :=
  flat_map (fun m => map (fun d => pm_to_am_constraint m d) (seq 0 (nd - 1))) (seq 0 nm).

(** _add_continuous_work_constraints; [flags m d] is the dimension's
    per-day expression *)
Definition am_flags (m d : nat) : linexpr := lvar (shift m d ShiftType.AM).
Definition pm_flags (m d : nat) : linexpr :=
  ladd (lvar (shift m d ShiftType.PM_HC)) (lvar (shift m d ShiftType.PM_IA)).
Definition total_flags (m d : nat) : linexpr :=
  ladd (ladd (lvar (shift m d ShiftType.AM)) (lvar (shift m d ShiftType.PM_HC)))
       (lvar (shift m d ShiftType.PM_IA)).

(** [for d in range(num_days - limit):
       Add(sum(flags(d + i) for i in range(limit + 1)) <= limit)] *)
Definition window_constraints (flags : nat -> nat -> linexpr) (limit : Z) (m : nat)
  : list constr :=
  map (fun d => CLe (lsum (map (fun i => flags m (d + i)%nat)
                               (seq 0 (Z.to_nat (limit + 1))))) limit)
      (seq 0 (Z.to_nat (Z.of_nat nd - limit))).

Definition continuous_work_constraints : list constr :=
  let lim := continuousWorkLimit (option_of inp) in
  flat_map (fun m => window_constraints am_flags (cwl_am lim) m
                  ++ window_constraints pm_flags (cwl_pm lim) m
                  ++ window_constraints total_flags (cwl_total lim) m) (seq 0 nm).


(** _add_soft_constraints *)
Definition new_bool_var (v : var) (st : CpModel) : CpModel :=
  {| model_vars := model_vars st ++ [v]; model_constraints := model_constraints st;
     penalties := penalties st; objective := objective st |}.

Definition append_penalty (p : Z * var) (st : CpModel) : CpModel :=
  {| model_vars := model_vars st; model_constraints := model_constraints st;
     penalties := penalties st ++ [p]; objective := objective st |}.

Definition consecutive_off_step (st : CpModel) (md : nat * nat) : CpModel :=
  let '(m, d) := md in
  let v := consecutive_off m d in
  let both := ladd (lvar (shift m d ShiftType.OFF)) (lvar (shift m (S d) ShiftType.OFF)) in
  let st := new_bool_var v st in
  let st := add_constraints [CEnforce (CEq both 2) (Pos v)] st in
  let st := add_constraints [CEnforce (CLt both 2) (Neg v)] st in
  append_penalty ((-5), v) st.

Definition add_soft_constraints (st : CpModel) : CpModel :=
  let opt := option_of inp in
  let st :=
    if String.eqb (dayOffStream opt) "on" then
      fold_left consecutive_off_step
        (flat_map (fun m => map (fun d => (m, d)) (seq 0 (nd - 1))) (seq 0 nm)) st
    else st in
  if String.eqb (workCodeAverage opt) "on" then
    (* the expressions are built, then the loop body is [pass] *)
    let total_am := lsum (flat_map (fun m => map (fun d => am_flags m d) (seq 0 nd)) (seq 0 nm)) in
    let total_pm := lsum (flat_map (fun m => map (fun d => pm_flags m d) (seq 0 nd)) (seq 0 nm)) in
    let _ := (total_am, total_pm) in
    fold_left (fun st m =>
                 let am_count := lsum (map (fun d => am_flags m d) (seq 0 nd)) in
                 let pm_count := lsum (map (fun d => pm_flags m d) (seq 0 nd)) in
                 let _ := (am_count, pm_count) in
                 st) (seq 0 nm) st
  else st.

End Builder.

(** _set_objective *)
Definition set_objective (st : CpModel) : CpModel :=
  match penalties st with
  | [] => st
  | ps => {| model_vars := model_vars st; model_constraints := model_constraints st;
             penalties := penalties st;
             objective := Some (lsum (map (fun '(w, v) => lscale w (lvar v)) ps)) |}
  end.

(** Steps 1-4 of [generate]: the model handed to the solver. *)
Definition build_model (inp : InputData) : CpModel :=
  let st := create_variables inp empty_model in
  let st := add_constraints (basic_constraints inp) st in
  let st := add_constraints (predefined_constraints inp) st in
  let st := add_constraints (daily_staffing_constraints inp) st in
  let st := add_constraints (dayoff_constraints inp) st in
  let st := add_constraints (rq_adjacent_constraints inp) st in
  let st := add_constraints (pm_to_am_constraints inp) st in
  let st := add_constraints (continuous_work_constraints inp) st in
  let st := add_soft_constraints inp st in
  set_objective st.

(* ------------------------------------------------------------------ *)
(** ** _extract_solution *)

Definition decided_code (a : assignment) (m d : nat) : string :=
  if a (shift m d ShiftType.OFF) then WorkCode.R
  else if a (shift m d ShiftType.AM) then WorkCode.Z
  else if a (shift m d ShiftType.PM_HC) then WorkCode.HC
  else if a (shift m d ShiftType.PM_IA) then WorkCode.IA
  else "".

Definition extract_cell (inp : InputData) (a : assignment) (m d : nat) : string :=
  match days (member inp m) !! d with
  | Some code => if negb (String.eqb code WorkCode.EMPTY) then code else decided_code a m d
  | None => decided_code a m d
  end.

Record ExtractResult := { ex_status : string; ex_schedule : list MemberSchedule }.

Definition extract_solution (inp : InputData) (a : assignment) : ExtractResult :=
  {| ex_status := "success";
     ex_schedule :=
       map (fun m => {| name := name (member inp m);
                        days := map (extract_cell inp a m) (seq 0 (num_days inp)) |})
           (seq 0 (num_members inp)) |}.

(* ------------------------------------------------------------------ *)
(** ** Solving: the CP-SAT backend and the wall clock are oracles *)

Inductive cp_status := OPTIMAL | FEASIBLE | INFEASIBLE | MODEL_INVALID | UNKNOWN.

Definition status_ok (s : cp_status) : bool :=
  match s with OPTIMAL | FEASIBLE => true | _ => false end.

(** [solver.Solve(model)] with [random_seed] (None: default seed) and
    [max_time_in_seconds] (in milliseconds). *)
Definition Backend := CpModel -> option nat -> Z -> cp_status * assignment.

Inductive GenerateResult :=
| SingleResult (status : string) (schedule : list MemberSchedule)
| MultiResult (status : string) (schedules : list (list MemberSchedule))
              (count : nat) (elapsed_time : Z)
| ErrorResult (status : string) (message : string).

(** Decimal digits of [n >= 0]. *)
Fixpoint digits_fuel (fuel : nat) (n : Z) (acc : string) : string :=
  match fuel with
  | O => acc
  | S f =>
      let acc := String (Ascii.ascii_of_nat (48 + Z.to_nat (n mod 10))) acc in
      if n <? 10 then acc else digits_fuel f (n / 10) acc
  end.

Definition decimal (n : Z) : string := digits_fuel (S (Z.to_nat (Z.log2 n))) n "".

(** [f"{t:.2f}"] for a time [t >= 0] given in hundredths of a second. *)
Definition format_2f (cs : Z) : string :=
  String.append (decimal (cs / 100))
    (String.append "." (String.append (if cs mod 100 <? 10 then "0" else "") (decimal (cs mod 100)))).

(** The message of _solve_multiple when no schedule was collected; it
    embeds [total_elapsed], the search time in hundredths of a second. *)
Definition multi_error_message (total_elapsed : Z) : string :=
  String.append "cannot generate a schedule. (search time: "
    (String.append (format_2f total_elapsed) "s)").

Definition solve_single (inp : InputData) (model : CpModel) (solver : Backend)
  : GenerateResult :=
  let '(status, a) := solver model None 60000 in
  match status with
  | OPTIMAL | FEASIBLE =>
      let r := extract_solution inp a in SingleResult (ex_status r) (ex_schedule r)
  | INFEASIBLE => ErrorResult "error" "no schedule satisfies the constraints (INFEASIBLE)"
  | MODEL_INVALID => ErrorResult "error" "the model is invalid (MODEL_INVALID)"
  | UNKNOWN => ErrorResult "error" "cannot generate a schedule. Status: 0"
  end.

(** The loop of _solve_multiple; [elapsed i] is [time.time() - start_time]
    read at the top of iteration [i], in milliseconds. *)
Fixpoint multi_loop (inp : InputData) (model : CpModel) (solver : Backend)
         (elapsed : nat -> Z) (max_total_time : Z) (is : list nat)
         (schedules : list (list MemberSchedule)) : list (list MemberSchedule) :=
  match is with
  | [] => schedules
  | i :: rest =>
      let remaining_time := max_total_time - elapsed i in
      if remaining_time <=? 0 then schedules                 (* break *)
      else
        let '(status, a) := solver model (Some i) (Z.min remaining_time 5000) in
        let schedules :=
          if status_ok status then
            let solution := extract_solution inp a in
            if String.eqb (ex_status solution) "success"
            then schedules ++ [ex_schedule solution] else schedules
          else schedules in
        multi_loop inp model solver elapsed max_total_time rest schedules
  end.

(** [total_elapsed] is [time.time() - start_time] after the loop, in
    hundredths of a second: [round(total_elapsed, 2)] in the result. *)
Definition solve_multiple (inp : InputData) (model : CpModel) (solver : Backend)
           (elapsed : nat -> Z) (total_elapsed : Z) (num_solutions : Z)
  : GenerateResult :=
  let schedules := multi_loop inp model solver elapsed 10000
                     (seq 0 (Z.to_nat num_solutions)) [] in
  match schedules with
  | [] => ErrorResult "error" (multi_error_message total_elapsed)
  | _ => MultiResult "success" schedules (length schedules) total_elapsed
  end.

Definition generate (inp : InputData) (solver : Backend) (elapsed : nat -> Z)
           (total_elapsed : Z) (num_solutions : Z) : GenerateResult :=
  let model := build_model inp in
  if Z.eqb num_solutions 1 then solve_single inp model solver
  else solve_multiple inp model solver elapsed total_elapsed num_solutions.

(* ------------------------------------------------------------------ *)
(** ** Observations used by the statements *)

Definition zsum (l : list Z) : Z := fold_right Z.add 0 l.

(** [days[d]] when [d < len(days)]. *)
Definition cell (inp : InputData) (m d : nat) : option string := days (member inp m) !! d.

Definition is_off_code (c : string) : bool := str_in c [WorkCode.R; WorkCode.RQ; WorkCode.DT].

Definition vocabulary : list string :=
  [WorkCode.R; WorkCode.RQ; WorkCode.Z; WorkCode.ZT; WorkCode.HC; WorkCode.HCT;
   WorkCode.IA; WorkCode.IAT; WorkCode.DT].

(** Every pre-filled cell is EMPTY or a code of the vocabulary. *)
Definition codes_in_vocabulary (inp : InputData) : bool :=
  forallb (fun ms => forallb (fun c => str_in c (WorkCode.EMPTY :: vocabulary)) (days ms))
          (schedule inp).

(** Row [m] of an extracted schedule. *)
Definition out_days (inp : InputData) (a : assignment) (m : nat) : list string :=
  days (nth m (ex_schedule (extract_solution inp a)) default_member).

(** Staffing weight of a cell, doubled: a half-weight training code
    counts 1 (0.5 staffing unit), any other cell 2 (1 unit). *)
Definition am_weight2 (c : option string) : Z :=
  match c with Some code => if String.eqb code WorkCode.ZT then 1 else 2 | None => 2 end.
Definition pm_weight2 (c : option string) : Z :=
  match c with
  | Some code => if str_in code [WorkCode.HCT; WorkCode.IAT] then 1 else 2
  | None => 2
  end.

Definition am_weighted2 (inp : InputData) (a : assignment) (d : nat) : Z :=
  zsum (map (fun m => am_weight2 (cell inp m d) * Z.b2z (a (shift m d ShiftType.AM)))
            (seq 0 (num_members inp))).
Definition pm_weighted2 (inp : InputData) (a : assignment) (d : nat) : Z :=
  zsum (map (fun m => pm_weight2 (cell inp m d) *
                      (Z.b2z (a (shift m d ShiftType.PM_HC)) + Z.b2z (a (shift m d ShiftType.PM_IA))))
            (seq 0 (num_members inp))).

Definition am_target (inp : InputData) (d : nat) : Z := 1.
Definition pm_target (inp : InputData) (d : nat) : Z := if is_reduced_day inp d then 1 else 2.

(** Number of days of a dimension worked in the window [d, d + limit]. *)
Definition window_count (flag : assignment -> nat -> nat -> Z) (a : assignment)
           (m d : nat) (limit : Z) : Z :=
  zsum (map (fun i => flag a m (d + i)%nat) (seq 0 (Z.to_nat (limit + 1)))).

Definition am_flag (a : assignment) (m d : nat) : Z := Z.b2z (a (shift m d ShiftType.AM)).
Definition pm_flag (a : assignment) (m d : nat) : Z :=
  Z.b2z (a (shift m d ShiftType.PM_HC)) + Z.b2z (a (shift m d ShiftType.PM_IA)).
Definition total_flag (a : assignment) (m d : nat) : Z :=
  Z.b2z (a (shift m d ShiftType.AM)) + Z.b2z (a (shift m d ShiftType.PM_HC))
  + Z.b2z (a (shift m d ShiftType.PM_IA)).

Definition with_workCodeAverage (inp : InputData) (s : string) : InputData :=
  let o := option_of inp in
  {| schedule := schedule inp;
     input_option := {| dayOffIndividual := dayOffIndividual o; dayOffStream := dayOffStream o;
                        workCodeAverage := s; continuousWorkLimit := continuousWorkLimit o;
                        targetYear := targetYear o; targetMonth := targetMonth o;
                        reducedStaffingDays := reducedStaffingDays o |} |}.

(** Attempt [i] of _solve_multiple is reached: no earlier check broke. *)
Definition attempt_runs (elapsed : nat -> Z) (i : nat) : Prop :=
  forall j, (j <= i)%nat -> 0 < 10000 - elapsed j.

Definition attempt_status (model : CpModel) (solver : Backend) (elapsed : nat -> Z) (i : nat)
  : cp_status := fst (solver model (Some i) (Z.min (10000 - elapsed i) 5000)).

(** The constraints every builder step before the soft ones adds. *)
Definition hard_constraints (inp : InputData) : list constr :=
  basic_constraints inp ++ predefined_constraints inp ++ daily_staffing_constraints inp
  ++ dayoff_constraints inp ++ rq_adjacent_constraints inp ++ pm_to_am_constraints inp
  ++ continuous_work_constraints inp.

(* ------------------------------------------------------------------ *)
(** ** Further observations of the code *)

(** [days.count(code)] in main.print_schedule. *)
Definition list_count (ds : list string) (code : string) : nat :=
  length (List.filter (String.eqb code) ds).

(** The statistics line of main.print_schedule: Z, HC, IA and R + RQ counts. *)
Definition print_stats (ds : list string) : nat * nat * nat * nat :=
  (list_count ds "Z", list_count ds "HC", list_count ds "IA",
   (list_count ds "R" + list_count ds "RQ")%nat).

(** The (member, day) pairs visited by the dayOffStream loop of _add_soft_constraints. *)
Definition stream_pairs (inp : InputData) : list (nat * nat) :=
  flat_map (fun m => map (fun d => (m, d)) (seq 0 (num_days inp - 1))) (seq 0 (num_members inp)).

(** Number of members and days whose day and next day are both OFF. *)
Definition consecutive_off_count (inp : InputData) (a : assignment) : Z :=
  zsum (map (fun '(m, d) => Z.b2z (a (shift m d ShiftType.OFF) && a (shift m (S d) ShiftType.OFF)))
            (stream_pairs inp)).

(** Shape of an extracted schedule: the input names in order, one code per
    day of the month, and every non-empty input cell copied unchanged. *)
Definition schedule_shape (inp : InputData) (sch : list MemberSchedule) : Prop :=
  map name sch = map name (schedule inp) /\
  forall m, (m < num_members inp)%nat ->
    length (days (nth m sch default_member)) = num_days inp /\
    forall d code, (d < num_days inp)%nat -> cell inp m d = Some code -> code <> WorkCode.EMPTY ->
      nth d (days (nth m sch default_member)) "" = code.

(** The two reified constraints of one consecutive-off indicator. *)
Definition stream_constraints (md : nat * nat) : list constr :=
  let '(m, d) := md in
  [CEnforce (CEq (ladd (lvar (shift m d ShiftType.OFF)) (lvar (shift m (S d) ShiftType.OFF))) 2)
            (Pos (consecutive_off m d));
   CEnforce (CLt (ladd (lvar (shift m d ShiftType.OFF)) (lvar (shift m (S d) ShiftType.OFF))) 2)
            (Neg (consecutive_off m d))].


(* ------------------------------------------------------------------ *)
(** ** Concrete inputs: February 2023 (28 days), four members *)

Module Examples.

(** Rotation AM, HC, IA, OFF shifted by one day per member. *)
Definition rotation_role (m d : nat) : nat :=
  match ((d + m) mod 4)%nat with
  | 0%nat => ShiftType.AM
  | 1%nat => ShiftType.PM_HC
  | 2%nat => ShiftType.PM_IA
  | _ => ShiftType.OFF
  end.

Definition opt_with (quotas : gmap string Z) : ScheduleOption :=
  {| dayOffIndividual := quotas; dayOffStream := "on"; workCodeAverage := "on";
     continuousWorkLimit := {| cwl_am := 1; cwl_pm := 2; cwl_total := 3 |};
     targetYear := 2023; targetMonth := 2; reducedStaffingDays := [] |}.

Definition roster (a_days : list string) : list MemberSchedule :=
  [ {| name := "A"; days := a_days |};
    {| name := "B"; days := ["HC"; "IA"] ++ repeat "" 26 |};
    {| name := "C"; days := [""; "DT"] ++ repeat "" 26 |};
    {| name := "D"; days := ["R"] ++ repeat "" 20 |} ].

Definition quotas_all : gmap string Z :=
  <["A" := 7]> (<["B" := 7]> (<["C" := 7]> {["D" := 7]})).

(** Member A has an RQ on day 3 (4 February). *)
Definition inpW : InputData :=
  {| schedule := roster (["" ; ""; ""; "RQ"] ++ repeat "" 24);
     input_option := opt_with quotas_all |}.

(** The same roster without a quota for member D. *)
Definition inpM : InputData :=
  {| schedule := roster (["" ; ""; ""; "RQ"] ++ repeat "" 24);
     input_option := opt_with (<["A" := 7]> (<["B" := 7]> {["C" := 7]})) |}.

(** Member A's day 3 holds the code "X", outside the vocabulary. *)
Definition inpX : InputData :=
  {| schedule := roster (["" ; ""; ""; "X"] ++ repeat "" 24);
     input_option := opt_with quotas_all |}.

Definition aW : assignment :=
  fun v => match v with
           | shift m d s => Nat.eqb (rotation_role m d) s
           | consecutive_off _ _ => false
           end.

(** A backend that always answers OPTIMAL with [aW]. *)
Definition solverW : Backend := fun _ _ _ => (OPTIMAL, aW).

(** February 2023 options with the given run-length limits and reduced weekdays. *)
Definition opt_limits (cwl : ContinuousWorkLimit) (reduced : list Z) : ScheduleOption :=
  {| dayOffIndividual := quotas_all; dayOffStream := "on"; workCodeAverage := "on";
     continuousWorkLimit := cwl; targetYear := 2023; targetMonth := 2;
     reducedStaffingDays := reduced |}.
(** The roster of [inpW] with an AM run-length limit of 0. *)
Definition inpZ : InputData :=
  {| schedule := schedule inpW;
     input_option := opt_limits {| cwl_am := 0; cwl_pm := 2; cwl_total := 3 |} [] |}.
(** The roster of [inpW] with reduced staffing on Sundays and Saturdays. *)
Definition inpR : InputData :=
  {| schedule := schedule inpW;
     input_option := opt_limits {| cwl_am := 1; cwl_pm := 2; cwl_total := 3 |} [0; 6] |}.
(** A backend that answers OPTIMAL with [aW] on seeded calls of at most 5000 ms. *)
Definition solverCap : Backend :=
  fun _ seed t => match seed with
                  | Some _ => if t <=? 5000 then (OPTIMAL, aW) else (INFEASIBLE, aW)
                  | None => (INFEASIBLE, aW)
                  end.

End Examples.

(* ------------------------------------------------------------------ *)
(** ** Evaluation of linear expressions *)

Definition tsum (a : assignment) (t : list (Z * var)) : Z :=
  fold_right (fun '(k, v) acc => k * Z.b2z (a v) + acc) 0 t.

Lemma tsum_cons a k v t : tsum a ((k, v) :: t) = k * Z.b2z (a v) + tsum a t.
Proof. reflexivity. Qed.

Lemma fold_terms a t c :
  fold_right (fun '(k, v) acc => k * Z.b2z (a v) + acc) c t = c + tsum a t.
Proof.
  induction t as [|[k v] t IH]; [cbn; lia|].
  cbn [fold_right]. rewrite IH, tsum_cons. lia.
Qed.

Lemma eval_tsum a e : eval a e = const e + tsum a (terms e).
Proof. unfold eval. apply fold_terms. Qed.

Lemma tsum_app a t1 t2 : tsum a (t1 ++ t2) = tsum a t1 + tsum a t2.
Proof.
  induction t1 as [|[k v] t IH].
  - rewrite app_nil_l. change (tsum a []) with 0. lia.
  - rewrite <- app_comm_cons, !tsum_cons, IH. lia.
Qed.

Lemma eval_ladd a e1 e2 : eval a (ladd e1 e2) = eval a e1 + eval a e2.
Proof. rewrite !eval_tsum. cbn [ladd const terms]. rewrite tsum_app. lia. Qed.

Lemma eval_lconst a c : eval a (lconst c) = c.
Proof. reflexivity. Qed.

Lemma eval_lvar a v : eval a (lvar v) = Z.b2z (a v).
Proof. rewrite eval_tsum. cbn [lvar const terms]. rewrite tsum_cons. change (tsum a []) with 0. lia. Qed.

Lemma eval_lscale a k e : eval a (lscale k e) = k * eval a e.
Proof.
  rewrite !eval_tsum. unfold lscale; cbn [const terms].
  induction (terms e) as [|[c v] t IH]; [cbn; lia|].
  cbn [map]. rewrite !tsum_cons. nia.
Qed.

Lemma zsum_cons x l : zsum (x :: l) = x + zsum l.
Proof. reflexivity. Qed.

Lemma zsum_nil : zsum [] = 0.
Proof. reflexivity. Qed.

Lemma eval_fold_ladd a l e0 :
  eval a (fold_left ladd l e0) = eval a e0 + zsum (map (eval a) l).
Proof.
  revert e0; induction l as [|e l IH]; intros e0; cbn [fold_left map].
  - rewrite zsum_nil. lia.
  - rewrite IH, eval_ladd, zsum_cons. lia.
Qed.

Lemma eval_lsum a l : eval a (lsum l) = zsum (map (eval a) l).
Proof. unfold lsum. rewrite eval_fold_ladd. reflexivity. Qed.

Lemma eval_doubled a e h : eval a (doubled e h) = (eval a e - h) * 2 + h.
Proof.
  unfold doubled, lsub. rewrite eval_ladd, eval_lscale, eval_ladd, !eval_lconst. lia.
Qed.

(* ------------------------------------------------------------------ *)
(** ** Sums over index ranges *)

Lemma zsum_map_ext {A} (f g : A -> Z) (l : list A) :
  (forall x, In x l -> f x = g x) -> zsum (map f l) = zsum (map g l).
Proof. intros H. f_equal. apply map_ext_in. exact H. Qed.

Lemma zsum_map_lin {A} (f g : A -> Z) (k : Z) (l : list A) :
  zsum (map (fun x => k * f x - g x) l) = k * zsum (map f l) - zsum (map g l).
Proof.
  induction l as [|x l IH]; cbn [map]; rewrite ?zsum_cons, ?zsum_nil; [lia|]. rewrite IH. lia.
Qed.

Lemma zsum_map_add {A} (f g : A -> Z) (l : list A) :
  zsum (map (fun x => f x + g x) l) = zsum (map f l) + zsum (map g l).
Proof.
  induction l as [|x l IH]; cbn [map]; rewrite ?zsum_cons, ?zsum_nil; [lia|]. rewrite IH. lia.
Qed.

Lemma zsum_nonneg {A} (f : A -> Z) (l : list A) :
  (forall x, In x l -> 0 <= f x) -> 0 <= zsum (map f l).
Proof.
  induction l as [|x l IH]; cbn [map In]; rewrite ?zsum_cons, ?zsum_nil; intros H; [lia|].
  specialize (H x (or_introl eq_refl)) as Hx. assert (0 <= zsum (map f l)) by (apply IH; auto). lia.
Qed.

Lemma zsum_zero {A} (f : A -> Z) (l : list A) :
  (forall x, In x l -> 0 <= f x) -> zsum (map f l) = 0 -> forall x, In x l -> f x = 0.
Proof.
  induction l as [|y l IH]; cbn [map In]; rewrite ?zsum_cons, ?zsum_nil;
    intros Hpos Hs x Hx; [contradiction|].
  assert (0 <= f y) by auto. assert (0 <= zsum (map f l)) by (apply zsum_nonneg; auto).
  destruct Hx as [<-|Hx]; [lia|]. apply IH; auto; lia.
Qed.

Lemma map_nth_seq_eq {A B} (f : A -> B) (l : list A) (x0 : A) :
  map (fun m => f (nth m l x0)) (seq 0 (length l)) = map f l.
Proof.
  induction l as [|x l IH]; [reflexivity|].
  cbn [length]. rewrite <- cons_seq. cbn. f_equal.
  rewrite <- seq_shift, map_map. exact IH.
Qed.

Lemma nth_map_seq {B} (f : nat -> B) (n d : nat) (x : B) :
  (d < n)%nat -> nth d (map f (seq 0 n)) x = f d.
Proof.
  intros Hd. rewrite nth_indep with (d' := f 0%nat) by (rewrite length_map, length_seq; lia).
  rewrite map_nth, seq_nth by lia. reflexivity.
Qed.

Lemma length_filter_map_seq (p : string -> bool) (f : nat -> string) (n : nat) :
  Z.of_nat (length (List.filter p (map f (seq 0 n))))
  = zsum (map (fun d => if p (f d) then 1 else 0) (seq 0 n)).
Proof.
  generalize 0%nat as k. induction n as [|n IH]; intros k; [reflexivity|].
  cbn [seq map List.filter]. rewrite zsum_cons.
  destruct (p (f k)); cbn [length]; rewrite <- (IH (S k)); lia.
Qed.

(* ------------------------------------------------------------------ *)
(** ** The constraint list of the built model *)

Lemma add_constraints_cons cs st :
  model_constraints (add_constraints cs st) = model_constraints st ++ cs.
Proof. reflexivity. Qed.

Lemma consecutive_off_fold_prefix l st :
  exists rest, model_constraints (fold_left consecutive_off_step l st)
               = model_constraints st ++ rest.
Proof.
  revert st; induction l as [|[m d] l IH]; intros st; cbn [fold_left].
  - exists []. rewrite app_nil_r. reflexivity.
  - destruct (IH (consecutive_off_step st (m, d))) as [rest Hr]. rewrite Hr.
    eexists. cbn. rewrite <- !app_assoc. reflexivity.
Qed.

Lemma fold_left_id {A B} (f : B -> A -> B) (l : list A) (x : B) :
  (forall y z, f y z = y) -> fold_left f l x = x.
Proof. intros Hf. revert x; induction l as [|z l IH]; intros x; cbn; [reflexivity|]. rewrite Hf. apply IH. Qed.

(** The workCodeAverage branch of _add_soft_constraints ends in [pass]. *)
Lemma add_soft_constraints_eq inp st :
  add_soft_constraints inp st =
  if String.eqb (dayOffStream (option_of inp)) "on" then
    fold_left consecutive_off_step
      (flat_map (fun m => map (fun d => (m, d)) (seq 0 (num_days inp - 1)))
                (seq 0 (num_members inp))) st
  else st.
Proof.
  unfold add_soft_constraints.
  destruct (String.eqb (workCodeAverage (option_of inp)) "on"); [|reflexivity].
  apply fold_left_id. reflexivity.
Qed.

Lemma soft_prefix inp st :
  exists rest, model_constraints (add_soft_constraints inp st) = model_constraints st ++ rest.
Proof.
  rewrite add_soft_constraints_eq.
  destruct (String.eqb _ "on"); [apply consecutive_off_fold_prefix|].
  exists []. rewrite app_nil_r. reflexivity.
Qed.

Lemma set_objective_cons st : model_constraints (set_objective st) = model_constraints st.
Proof. unfold set_objective. destruct (penalties st); reflexivity. Qed.

Lemma build_model_constraints inp :
  exists rest, model_constraints (build_model inp) = hard_constraints inp ++ rest.
Proof.
  unfold build_model. rewrite set_objective_cons.
  match goal with |- context [add_soft_constraints inp ?st] =>
    destruct (soft_prefix inp st) as [rest Hr] end.
  rewrite Hr. exists rest. rewrite !add_constraints_cons. cbn.
  unfold hard_constraints. rewrite <- !app_assoc. reflexivity.
Qed.

Lemma accepted_hard a inp c :
  accepted a (build_model inp) = true -> In c (hard_constraints inp) -> holds a c = true.
Proof.
  intros Ha Hc. unfold accepted in Ha. destruct (build_model_constraints inp) as [rest Hr].
  rewrite Hr in Ha. rewrite forallb_forall in Ha. apply Ha, in_or_app. left; exact Hc.
Qed.

Ltac in_hard :=
  unfold hard_constraints; rewrite ?in_app_iff; tauto.

(* ------------------------------------------------------------------ *)
(** ** Exactly one category per cell *)

Lemma in_basic inp m d :
  (m < num_members inp)%nat -> (d < num_days inp)%nat ->
  In (basic_constraint m d) (basic_constraints inp).
Proof.
  intros Hm Hd. unfold basic_constraints. apply in_flat_map. exists m.
  split; [apply in_seq; lia|]. apply in_map, in_seq. lia.
Qed.

Lemma exactly_one a inp m d :
  accepted a (build_model inp) = true ->
  (m < num_members inp)%nat -> (d < num_days inp)%nat ->
  Z.b2z (a (shift m d ShiftType.OFF)) + Z.b2z (a (shift m d ShiftType.AM))
  + Z.b2z (a (shift m d ShiftType.PM_HC)) + Z.b2z (a (shift m d ShiftType.PM_IA)) = 1.
Proof.
  intros Ha Hm Hd.
  assert (H : holds a (basic_constraint m d) = true)
    by (apply (accepted_hard a inp); pose proof (in_basic inp m d Hm Hd); in_hard).
  unfold basic_constraint in H. cbn [holds] in H. apply Z.eqb_eq in H.
  rewrite eval_lsum, map_map in H. cbn [seq map] in H.
  rewrite !eval_lvar, !zsum_cons, zsum_nil in H. unfold ShiftType.OFF, ShiftType.AM,
  ShiftType.PM_HC, ShiftType.PM_IA. lia.
Qed.

(* ------------------------------------------------------------------ *)
(** ** Pinned cells *)

(** The category a pre-filled code pins (the branches of
    _add_predefined_schedule_constraints). *)
Definition code_category (code : string) : option nat :=
  if String.eqb code WorkCode.EMPTY then None
  else if str_in code [WorkCode.RQ; WorkCode.R] then Some ShiftType.OFF
  else if str_in code [WorkCode.Z; WorkCode.ZT] then Some ShiftType.AM
  else if str_in code [WorkCode.HC; WorkCode.HCT] then Some ShiftType.PM_HC
  else if str_in code [WorkCode.IA; WorkCode.IAT] then Some ShiftType.PM_IA
  else if String.eqb code WorkCode.DT then Some ShiftType.OFF
  else None.

Lemma pin_code_category m d code :
  pin_code m d code =
  match code_category code with
  | Some s => [CEq (lvar (shift m d s)) 1]
  | None => []
  end.
Proof.
  unfold pin_code, code_category.
  repeat match goal with |- context [if ?b then _ else _] => destruct b end; reflexivity.
Qed.

Lemma in_predefined_loop inp m ds d0 k code c :
  ds !! k = Some code -> (d0 + k < num_days inp)%nat ->
  In c (pin_code m (d0 + k) code) -> In c (predefined_loop inp m d0 ds).
Proof.
  revert d0 k; induction ds as [|code' rest IH]; intros d0 k Hk Hlt Hc; [discriminate|].
  cbn [predefined_loop]. replace (Nat.leb (num_days inp) d0) with false
    by (symmetry; apply Nat.leb_gt; lia).
  apply in_or_app. destruct k as [|k].
  - cbn in Hk. injection Hk as <-. left. rewrite Nat.add_0_r in Hc. exact Hc.
  - right. apply (IH (S d0) k); [exact Hk|lia|]. replace (S d0 + k)%nat with (d0 + S k)%nat by lia.
    exact Hc.
Qed.

Lemma in_predefined inp m d code c :
  (m < num_members inp)%nat -> (d < num_days inp)%nat -> cell inp m d = Some code ->
  In c (pin_code m d code) -> In c (predefined_constraints inp).
Proof.
  intros Hm Hd Hcell Hc. unfold predefined_constraints. apply in_flat_map. exists m.
  split; [apply in_seq; lia|]. apply (in_predefined_loop inp m _ 0 d code); assumption.
Qed.

Lemma pinned_flag a inp m d code s :
  accepted a (build_model inp) = true ->
  (m < num_members inp)%nat -> (d < num_days inp)%nat -> cell inp m d = Some code ->
  code_category code = Some s -> a (shift m d s) = true.
Proof.
  intros Ha Hm Hd Hcell Hcat.
  assert (H : holds a (CEq (lvar (shift m d s)) 1) = true).
  { apply (accepted_hard a inp); [exact Ha|].
    assert (In (CEq (lvar (shift m d s)) 1) (predefined_constraints inp)).
    { apply (in_predefined inp m d code); auto. rewrite pin_code_category, Hcat. left; reflexivity. }
    in_hard. }
  cbn [holds] in H. apply Z.eqb_eq in H. rewrite eval_lvar in H.
  destruct (a (shift m d s)); [reflexivity|discriminate].
Qed.

Lemma str_in_In c l : str_in c l = true <-> In c l.
Proof.
  unfold str_in. rewrite existsb_exists. split.
  - intros [x [Hx Heq]]. apply String.eqb_eq in Heq. subst. exact Hx.
  - intros Hc. exists c. split; [exact Hc|]. apply String.eqb_refl.
Qed.

(* ------------------------------------------------------------------ *)
(** ** Daily staffing: counts and totals *)

Definition p1 (x : Z * Z * Z * Z) : Z := let '(z, _, _, _) := x in z.
Definition p3 (x : Z * Z * Z * Z) : Z := let '(_, _, z, _) := x in z.

Definition zt_ind (c : option string) : Z :=
  match c with Some code => if String.eqb code WorkCode.ZT then 1 else 0 | None => 0 end.
Definition half_pm_ind (c : option string) : Z :=
  match c with
  | Some code => if str_in code [WorkCode.HCT; WorkCode.IAT] then 1 else 0
  | None => 0
  end.

Lemma count_code_p1 acc code :
  p1 (count_code acc code) = p1 acc + (if String.eqb code WorkCode.ZT then 1 else 0).
Proof.
  destruct acc as [[[z1 z2] z3] z4]. unfold count_code.
  destruct (String.eqb code WorkCode.ZT); [reflexivity|].
  repeat match goal with |- context [if ?b then _ else _] => destruct b end;
    cbn; lia.
Qed.

Lemma count_code_p3 acc code :
  p3 (count_code acc code) = p3 acc + (if str_in code [WorkCode.HCT; WorkCode.IAT] then 1 else 0).
Proof.
  destruct acc as [[[z1 z2] z3] z4]. unfold count_code.
  destruct (String.eqb_spec code WorkCode.ZT) as [->|_]; [cbn; lia|].
  destruct (String.eqb_spec code WorkCode.Z) as [->|_]; [cbn; lia|].
  destruct (str_in code [WorkCode.HCT; WorkCode.IAT]); [cbn; lia|].
  destruct (str_in code [WorkCode.HC; WorkCode.IA]); cbn; lia.
Qed.

Lemma day_counts_fold_p1 d l acc :
  p1 (fold_left (fun acc member_schedule =>
                   match days member_schedule !! d with
                   | None => acc | Some code => count_code acc code end) l acc)
  = p1 acc + zsum (map (fun ms => zt_ind (days ms !! d)) l).
Proof.
  revert acc; induction l as [|ms l IH]; intros acc; cbn [fold_left map].
  - rewrite zsum_nil. lia.
  - rewrite IH, zsum_cons. destruct (days ms !! d) as [code|].
    + rewrite count_code_p1. change (zt_ind (Some code)) with (if String.eqb code WorkCode.ZT then 1 else 0). lia.
    + change (zt_ind None) with 0. lia.
Qed.

Lemma day_counts_fold_p3 d l acc :
  p3 (fold_left (fun acc member_schedule =>
                   match days member_schedule !! d with
                   | None => acc | Some code => count_code acc code end) l acc)
  = p3 acc + zsum (map (fun ms => half_pm_ind (days ms !! d)) l).
Proof.
  revert acc; induction l as [|ms l IH]; intros acc; cbn [fold_left map].
  - rewrite zsum_nil. lia.
  - rewrite IH, zsum_cons. destruct (days ms !! d) as [code|].
    + rewrite count_code_p3. change (half_pm_ind (Some code)) with (if str_in code [WorkCode.HCT; WorkCode.IAT] then 1 else 0). lia.
    + change (half_pm_ind None) with 0. lia.
Qed.

Lemma zt_count_eq inp d :
  p1 (day_counts inp d) = zsum (map (fun m => zt_ind (cell inp m d)) (seq 0 (num_members inp))).
Proof.
  unfold day_counts. rewrite day_counts_fold_p1. cbn [p1]. unfold cell, member, num_members.
  rewrite (map_nth_seq_eq (fun ms => zt_ind (days ms !! d))). lia.
Qed.

Lemma hct_iat_count_eq inp d :
  p3 (day_counts inp d) = zsum (map (fun m => half_pm_ind (cell inp m d)) (seq 0 (num_members inp))).
Proof.
  unfold day_counts. rewrite day_counts_fold_p3. cbn [p3]. unfold cell, member, num_members.
  rewrite (map_nth_seq_eq (fun ms => half_pm_ind (days ms !! d))). lia.
Qed.

Lemma eval_am_total a inp d :
  eval a (am_total inp d)
  = zsum (map (fun m => Z.b2z (a (shift m d ShiftType.AM))) (seq 0 (num_members inp))).
Proof.
  unfold am_total. rewrite eval_lsum, map_map. f_equal. apply map_ext. intros m.
  apply eval_lvar.
Qed.

Lemma eval_pm_total a inp d :
  eval a (pm_total inp d)
  = zsum (map (fun m => Z.b2z (a (shift m d ShiftType.PM_HC)) + Z.b2z (a (shift m d ShiftType.PM_IA)))
              (seq 0 (num_members inp))).
Proof.
  unfold pm_total. rewrite eval_lsum, map_map. f_equal. apply map_ext. intros m.
  rewrite eval_ladd, !eval_lvar. reflexivity.
Qed.

Lemma in_daily_staffing inp d :
  (d < num_days inp)%nat ->
  In (am_staffing_constraint inp d) (daily_staffing_constraints inp) /\
  In (pm_staffing_constraint inp d) (daily_staffing_constraints inp).
Proof.
  intros Hd. unfold daily_staffing_constraints. split; apply in_flat_map; exists d;
    (split; [apply in_seq; lia|]); cbn; tauto.
Qed.

Lemma nonneg_ind_sum (f : nat -> Z) l :
  (forall m, 0 <= f m) -> 0 <= zsum (map f l).
Proof. intros H. apply zsum_nonneg. intros; apply H. Qed.

Lemma zt_ind_nonneg c : 0 <= zt_ind c.
Proof. unfold zt_ind. destruct c as [code|]; [destruct (String.eqb _ _)|]; lia. Qed.

Lemma half_pm_ind_nonneg c : 0 <= half_pm_ind c.
Proof. unfold half_pm_ind. destruct c as [code|]; [destruct (str_in _ _)|]; lia. Qed.

(** Pointwise: a ZT cell has its AM flag pinned. *)
Lemma am_weight_point a inp d m :
  accepted a (build_model inp) = true ->
  (m < num_members inp)%nat -> (d < num_days inp)%nat ->
  am_weight2 (cell inp m d) * Z.b2z (a (shift m d ShiftType.AM))
  = 2 * Z.b2z (a (shift m d ShiftType.AM)) - zt_ind (cell inp m d).
Proof.
  intros Ha Hm Hd. unfold am_weight2, zt_ind.
  destruct (cell inp m d) as [code|] eqn:Hc; [|lia].
  destruct (String.eqb_spec code WorkCode.ZT) as [->|_]; [|lia].
  rewrite (pinned_flag a inp m d WorkCode.ZT ShiftType.AM Ha Hm Hd Hc eq_refl). cbn. lia.
Qed.

(** Pointwise: an HCT/IAT cell has exactly one PM flag set. *)
Lemma pm_weight_point a inp d m :
  accepted a (build_model inp) = true ->
  (m < num_members inp)%nat -> (d < num_days inp)%nat ->
  pm_weight2 (cell inp m d) *
    (Z.b2z (a (shift m d ShiftType.PM_HC)) + Z.b2z (a (shift m d ShiftType.PM_IA)))
  = 2 * (Z.b2z (a (shift m d ShiftType.PM_HC)) + Z.b2z (a (shift m d ShiftType.PM_IA)))
    - half_pm_ind (cell inp m d).
Proof.
  intros Ha Hm Hd. unfold pm_weight2, half_pm_ind.
  destruct (cell inp m d) as [code|] eqn:Hc; [|lia].
  destruct (str_in code [WorkCode.HCT; WorkCode.IAT]) eqn:Hs; [|lia].
  pose proof (exactly_one a inp m d Ha Hm Hd) as H1.
  apply str_in_In in Hs. destruct Hs as [<-|[<-|[]]].
  - rewrite (pinned_flag a inp m d WorkCode.HCT ShiftType.PM_HC Ha Hm Hd Hc eq_refl) in *.
    cbn [Z.b2z] in *. destruct (a (shift m d ShiftType.OFF)), (a (shift m d ShiftType.AM)),
      (a (shift m d ShiftType.PM_IA)); cbn in *; lia.
  - rewrite (pinned_flag a inp m d WorkCode.IAT ShiftType.PM_IA Ha Hm Hd Hc eq_refl) in *.
    cbn [Z.b2z] in *. destruct (a (shift m d ShiftType.OFF)), (a (shift m d ShiftType.AM)),
      (a (shift m d ShiftType.PM_HC)); cbn in *; lia.
Qed.

(* ------------------------------------------------------------------ *)
(** ** C1: daily staffing *)

(** C1: one AM and one PM staffing constraint per day of the month; the
    AM constraint is [(am_total - zt) * 2 + zt == 2] when the day has
    [zt > 0] ZT cells and [am_total == 1] otherwise, the PM one the same
    with the HCT/IAT count and target 2 (1 on reduced days).  In every
    accepted assignment the staffing-weighted AM total (ZT cells 0.5, the
    other AM cells 1; doubled here) is 1 and the weighted PM total
    (HCT/IAT cells 0.5, other PM_HC/PM_IA cells 1) is the day's target. *)
Theorem daily_staffing_weighted_totals (inp : InputData) :
  length (daily_staffing_constraints inp) = (2 * num_days inp)%nat /\
  (forall d : nat,
     am_staffing_constraint inp d =
       (let zt := p1 (day_counts inp d) in
        if 0 <? zt then CEq (doubled (am_total inp d) zt) (2 * am_target inp d)
        else CEq (am_total inp d) (am_target inp d)) /\
     pm_staffing_constraint inp d =
       (let half := p3 (day_counts inp d) in
        if 0 <? half then CEq (doubled (pm_total inp d) half) (2 * pm_target inp d)
        else CEq (pm_total inp d) (pm_target inp d))) /\
  (forall (a : assignment) (d : nat),
     accepted a (build_model inp) = true -> (d < num_days inp)%nat ->
     am_weighted2 inp a d = 2 * am_target inp d /\
     pm_weighted2 inp a d = 2 * pm_target inp d).
Proof.
  split; [|split].
  - unfold daily_staffing_constraints.
    assert (G : forall n k, length (flat_map (fun d => [am_staffing_constraint inp d;
                                                    pm_staffing_constraint inp d]) (seq k n))
                            = (2 * n)%nat).
    { induction n as [|n IH]; intros k; [reflexivity|].
      cbn [seq flat_map]. cbn [app length]. rewrite IH. lia. }
    apply G.
  - intros d. unfold am_staffing_constraint, pm_staffing_constraint, am_target, pm_target.
    destruct (day_counts inp d) as [[[zt z] h] hc]. cbn [p1 p3].
    destruct (is_reduced_day inp d); split; reflexivity.
  - intros a d Ha Hd.
    destruct (in_daily_staffing inp d Hd) as [Hin_am Hin_pm].
    assert (Ham : holds a (am_staffing_constraint inp d) = true)
      by (apply (accepted_hard a inp); [exact Ha|]; in_hard).
    assert (Hpm : holds a (pm_staffing_constraint inp d) = true)
      by (apply (accepted_hard a inp); [exact Ha|]; in_hard).
    assert (Wam : am_weighted2 inp a d
                  = 2 * eval a (am_total inp d) - p1 (day_counts inp d)).
    { unfold am_weighted2. rewrite eval_am_total, zt_count_eq, <- zsum_map_lin.
      apply zsum_map_ext. intros m Hm. apply in_seq in Hm.
      apply am_weight_point; [exact Ha|lia|exact Hd]. }
    assert (Wpm : pm_weighted2 inp a d
                  = 2 * eval a (pm_total inp d) - p3 (day_counts inp d)).
    { unfold pm_weighted2. rewrite eval_pm_total, hct_iat_count_eq, <- zsum_map_lin.
      apply zsum_map_ext. intros m Hm. apply in_seq in Hm.
      apply pm_weight_point; [exact Ha|lia|exact Hd]. }
    assert (Pz : 0 <= p1 (day_counts inp d))
      by (rewrite zt_count_eq; apply nonneg_ind_sum; intros; apply zt_ind_nonneg).
    assert (Ph : 0 <= p3 (day_counts inp d))
      by (rewrite hct_iat_count_eq; apply nonneg_ind_sum; intros; apply half_pm_ind_nonneg).
    unfold am_staffing_constraint in Ham. unfold pm_staffing_constraint in Hpm.
    unfold am_target, pm_target.
    destruct (day_counts inp d) as [[[zt z] h] hc]. cbn [p1 p3] in *.
    destruct (is_reduced_day inp d);
      (destruct (0 <? zt) eqn:Ez; cbn [holds] in Ham; apply Z.eqb_eq in Ham;
       rewrite ?eval_doubled in Ham);
      (destruct (0 <? h) eqn:Eh; cbn [holds] in Hpm; apply Z.eqb_eq in Hpm;
       rewrite ?eval_doubled in Hpm);
      rewrite ?Z.ltb_lt, ?Z.ltb_ge in Ez, Eh; lia.
Qed.

(* ------------------------------------------------------------------ *)
(** ** Extraction and OFF days *)

Lemma basic_sum a m d :
  holds a (basic_constraint m d) = true ->
  Z.b2z (a (shift m d ShiftType.OFF)) + Z.b2z (a (shift m d ShiftType.AM))
  + Z.b2z (a (shift m d ShiftType.PM_HC)) + Z.b2z (a (shift m d ShiftType.PM_IA)) = 1.
Proof.
  intros H. unfold basic_constraint in H. cbn [holds] in H. apply Z.eqb_eq in H.
  rewrite eval_lsum, map_map in H. cbn [seq map] in H.
  rewrite !eval_lvar, !zsum_cons, zsum_nil in H. unfold ShiftType.OFF, ShiftType.AM,
  ShiftType.PM_HC, ShiftType.PM_IA. lia.
Qed.

Lemma exactly_one_other a inp m d s :
  accepted a (build_model inp) = true ->
  (m < num_members inp)%nat -> (d < num_days inp)%nat ->
  a (shift m d s) = true -> s <> ShiftType.OFF -> (s < 4)%nat ->
  a (shift m d ShiftType.OFF) = false.
Proof.
  intros Ha Hm Hd Hs Hne Hlt. pose proof (exactly_one a inp m d Ha Hm Hd) as H1.
  unfold ShiftType.OFF, ShiftType.AM, ShiftType.PM_HC, ShiftType.PM_IA in *.
  destruct s as [|[|[|[|s]]]]; [congruence| | | |lia]; rewrite Hs in H1;
    destruct (a (shift m d 0%nat)); cbn [Z.b2z] in H1; try reflexivity;
    repeat match type of H1 with context [Z.b2z (a ?v)] => destruct (a v) end;
    cbn [Z.b2z] in H1; lia.
Qed.

Lemma vocabulary_category code :
  In code vocabulary ->
  exists s, code_category code = Some s /\ is_off_code code = Nat.eqb s ShiftType.OFF /\ (s < 4)%nat.
Proof.
  intros H. repeat destruct H as [<-|H]; try contradiction;
    (eexists; split; [reflexivity|]; split; [reflexivity|]; cbv; lia).
Qed.

Lemma off_code_category code :
  is_off_code code = true -> code_category code = Some ShiftType.OFF.
Proof.
  intros H. apply str_in_In in H. repeat destruct H as [<-|H]; try contradiction; reflexivity.
Qed.

Lemma is_off_decided a m d :
  is_off_code (decided_code a m d) = a (shift m d ShiftType.OFF).
Proof.
  unfold decided_code.
  destruct (a (shift m d ShiftType.OFF)); [reflexivity|].
  destruct (a (shift m d ShiftType.AM)); [reflexivity|].
  destruct (a (shift m d ShiftType.PM_HC)); [reflexivity|].
  destruct (a (shift m d ShiftType.PM_IA)); reflexivity.
Qed.

Lemma out_days_eq inp a m :
  (m < num_members inp)%nat ->
  out_days inp a m = map (extract_cell inp a m) (seq 0 (num_days inp)).
Proof.
  intros Hm. unfold out_days, extract_solution. cbn [ex_schedule].
  rewrite nth_map_seq by exact Hm. reflexivity.
Qed.

Lemma cell_in_vocabulary inp m d code :
  codes_in_vocabulary inp = true -> (m < num_members inp)%nat ->
  cell inp m d = Some code -> code <> WorkCode.EMPTY -> In code vocabulary.
Proof.
  intros Hv Hm Hc Hne. unfold codes_in_vocabulary in Hv. rewrite forallb_forall in Hv.
  assert (Hmem : In (member inp m) (schedule inp)) by (apply nth_In; exact Hm).
  specialize (Hv _ Hmem). rewrite forallb_forall in Hv.
  assert (Hin : In code (days (member inp m))).
  { apply list_elem_of_In. apply (list_elem_of_lookup_2 _ d). exact Hc. }
  specialize (Hv _ Hin). apply str_in_In in Hv. destruct Hv as [Hv|Hv]; [congruence|exact Hv].
Qed.

Lemma in_dayoff inp m :
  (m < num_members inp)%nat ->
  In (CEq (off_count inp m) (target_dayoff inp m)) (dayoff_constraints inp).
Proof.
  intros Hm. unfold dayoff_constraints. apply in_map_iff. exists m. split; [reflexivity|].
  apply in_seq. lia.
Qed.

Lemma off_flags_sum a inp m :
  accepted a (build_model inp) = true -> (m < num_members inp)%nat ->
  zsum (map (fun d => Z.b2z (a (shift m d ShiftType.OFF))) (seq 0 (num_days inp)))
  = target_dayoff inp m.
Proof.
  intros Ha Hm.
  assert (H : holds a (CEq (off_count inp m) (target_dayoff inp m)) = true)
    by (apply (accepted_hard a inp); [exact Ha|]; pose proof (in_dayoff inp m Hm); in_hard).
  cbn [holds] in H. apply Z.eqb_eq in H. rewrite <- H. unfold off_count.
  rewrite eval_lsum, map_map. f_equal. apply map_ext. intros d. symmetry. apply eval_lvar.
Qed.

(** With a vocabulary input, an output cell is an OFF code exactly when
    the cell's OFF flag is set. *)
Lemma off_point a inp m d :
  codes_in_vocabulary inp = true -> accepted a (build_model inp) = true ->
  (m < num_members inp)%nat -> (d < num_days inp)%nat ->
  (if is_off_code (extract_cell inp a m d) then 1 else 0) = Z.b2z (a (shift m d ShiftType.OFF)).
Proof.
  intros Hv Ha Hm Hd. unfold extract_cell. fold (cell inp m d).
  destruct (cell inp m d) as [code|] eqn:Hc.
  - destruct (String.eqb_spec code WorkCode.EMPTY) as [Heq|Hne]; cbn [negb].
    + rewrite is_off_decided. destruct (a _); reflexivity.
    + destruct (vocabulary_category code (cell_in_vocabulary inp m d code Hv Hm Hc Hne))
        as [s [Hcat [Hoff Hs]]].
      pose proof (pinned_flag a inp m d code s Ha Hm Hd Hc Hcat) as Hflag.
      rewrite Hoff. destruct (Nat.eqb_spec s ShiftType.OFF) as [->|Hne'].
      * rewrite Hflag. reflexivity.
      * rewrite (exactly_one_other a inp m d s Ha Hm Hd Hflag Hne' Hs). reflexivity.
  - rewrite is_off_decided. destruct (a _); reflexivity.
Qed.

(* ------------------------------------------------------------------ *)
(** ** C2, C4, C9, C10 *)

(** C2: for a member with configured quota [q], the output row of every
    accepted assignment holds exactly [q] OFF-category codes (pre-filled
    R, RQ, DT and solver-assigned R), when the pre-filled cells are EMPTY
    or codes of the vocabulary. *)
Theorem dayoff_quota_exact (inp : InputData) (a : assignment) (m : nat) (q : Z) :
  accepted a (build_model inp) = true -> (m < num_members inp)%nat ->
  codes_in_vocabulary inp = true ->
  dayOffIndividual (option_of inp) !! name (member inp m) = Some q ->
  Z.of_nat (length (List.filter is_off_code (out_days inp a m))) = q.
Proof.
  intros Ha Hm Hv Hq. rewrite out_days_eq by exact Hm.
  rewrite length_filter_map_seq.
  transitivity (target_dayoff inp m).
  - rewrite <- (off_flags_sum a inp m Ha Hm). apply zsum_map_ext. intros d Hd.
    apply in_seq in Hd. apply off_point; auto; lia.
  - unfold target_dayoff. rewrite Hq. reflexivity.
Qed.

(** C4 (as the code has it): the day-off constraint of a member sums the
    OFF flags of every day of the month, pre-filled or EMPTY; pre-filled
    R/RQ/DT cells have their OFF flag pinned, so they count toward the
    quota inside the model. *)
Theorem dayoff_sum_all_days (inp : InputData) (a : assignment) (m : nat) :
  (m < num_members inp)%nat ->
  (forall d, (d < num_days inp)%nat ->
     In (1, shift m d ShiftType.OFF) (terms (off_count inp m))) /\
  (accepted a (build_model inp) = true ->
   zsum (map (fun d => Z.b2z (a (shift m d ShiftType.OFF))) (seq 0 (num_days inp)))
     = target_dayoff inp m /\
   (forall d code, (d < num_days inp)%nat -> cell inp m d = Some code ->
      is_off_code code = true -> a (shift m d ShiftType.OFF) = true)).
Proof.
  intros Hm. split.
  - intros d Hd. unfold off_count, lsum.
    assert (G : forall l e0, In (1, shift m d ShiftType.OFF) (terms e0) \/
                             In (1, shift m d ShiftType.OFF) (flat_map terms l) ->
                             In (1, shift m d ShiftType.OFF) (terms (fold_left ladd l e0))).
    { induction l as [|e l IH]; intros e0 H; cbn in *; [tauto|].
      apply IH. cbn [ladd terms]. rewrite !in_app_iff in *. tauto. }
    apply G. right. apply in_flat_map. exists (lvar (shift m d ShiftType.OFF)).
    split; [apply in_map_iff; exists d; split; [reflexivity|apply in_seq; lia]|]. left; reflexivity.
  - intros Ha. split; [apply off_flags_sum; assumption|].
    intros d code Hd Hc Hoff. apply (pinned_flag a inp m d code); auto.
    apply off_code_category, Hoff.
Qed.

(** C9: a member whose name is not a key of dayOffIndividual gets quota 0:
    no output cell of theirs is an OFF code in any accepted assignment, and
    a pre-filled R, RQ or DT cell of theirs leaves no accepted assignment. *)
Theorem missing_quota_means_no_off (inp : InputData) (m : nat) :
  (m < num_members inp)%nat ->
  dayOffIndividual (option_of inp) !! name (member inp m) = None ->
  (forall a : assignment, accepted a (build_model inp) = true ->
     length (List.filter is_off_code (out_days inp a m)) = 0%nat) /\
  (forall (d : nat) (code : string), (d < num_days inp)%nat -> cell inp m d = Some code ->
     is_off_code code = true -> forall a : assignment, accepted a (build_model inp) = false).
Proof.
  intros Hm Hq.
  assert (Zero : forall a, accepted a (build_model inp) = true ->
                 forall d, (d < num_days inp)%nat -> a (shift m d ShiftType.OFF) = false).
  { intros a Ha d Hd. pose proof (off_flags_sum a inp m Ha Hm) as Hs.
    unfold target_dayoff in Hs. rewrite Hq in Hs. cbn [default] in Hs.
    assert (H0 : Z.b2z (a (shift m d ShiftType.OFF)) = 0).
    { apply (zsum_zero (fun d => Z.b2z (a (shift m d ShiftType.OFF))) (seq 0 (num_days inp)));
        [intros; destruct (a _); cbn; lia | exact Hs | apply in_seq; lia]. }
    destruct (a _); [discriminate|reflexivity]. }
  split.
  - intros a Ha. rewrite out_days_eq by exact Hm.
    enough (Z.of_nat (length (List.filter is_off_code
              (map (extract_cell inp a m) (seq 0 (num_days inp))))) = 0) by lia.
    rewrite length_filter_map_seq.
    transitivity (zsum (map (fun _ : nat => 0) (seq 0 (num_days inp)))).
    + apply zsum_map_ext. intros d Hd. apply in_seq in Hd.
      assert (Hoff : a (shift m d ShiftType.OFF) = false) by (apply Zero; auto; lia).
      unfold extract_cell. fold (cell inp m d).
      destruct (cell inp m d) as [code|] eqn:Hc.
      * destruct (String.eqb code WorkCode.EMPTY); cbn [negb].
        -- rewrite is_off_decided, Hoff. reflexivity.
        -- destruct (is_off_code code) eqn:Ho; [|reflexivity].
           rewrite (pinned_flag a inp m d code ShiftType.OFF Ha Hm ltac:(lia) Hc
                      (off_code_category code Ho)) in Hoff. discriminate.
      * rewrite is_off_decided, Hoff. reflexivity.
    + clear. induction (seq 0 (num_days inp)); cbn [map]; rewrite ?zsum_cons, ?zsum_nil; lia.
  - intros d code Hd Hc Ho a. destruct (accepted a (build_model inp)) eqn:Ha; [|reflexivity].
    pose proof (Zero a Ha d Hd) as H0.
    rewrite (pinned_flag a inp m d code ShiftType.OFF Ha Hm Hd Hc (off_code_category code Ho)) in H0.
    discriminate.
Qed.

(** C10: when the exactly-one constraints hold, no extracted cell takes
    the final [""] branch: each is the non-empty pre-filled code, copied,
    or one of R, Z, HC, IA. *)
Theorem extracted_cells_defined (inp : InputData) (a : assignment) :
  forallb (holds a) (basic_constraints inp) = true ->
  forall m d : nat, (m < num_members inp)%nat -> (d < num_days inp)%nat ->
    decided_code a m d <> "" /\
    length (out_days inp a m) = num_days inp /\
    ((exists code, cell inp m d = Some code /\ code <> WorkCode.EMPTY /\
                   nth d (out_days inp a m) "" = code) \/
     In (nth d (out_days inp a m) "") [WorkCode.R; WorkCode.Z; WorkCode.HC; WorkCode.IA]).
Proof.
  intros Hb m d Hm Hd. rewrite forallb_forall in Hb.
  pose proof (basic_sum a m d (Hb _ (in_basic inp m d Hm Hd))) as H1.
  assert (Hdec : In (decided_code a m d) [WorkCode.R; WorkCode.Z; WorkCode.HC; WorkCode.IA]).
  { unfold decided_code.
    destruct (a (shift m d ShiftType.OFF)); [cbn; tauto|].
    destruct (a (shift m d ShiftType.AM)); [cbn; tauto|].
    destruct (a (shift m d ShiftType.PM_HC)); [cbn; tauto|].
    destruct (a (shift m d ShiftType.PM_IA)); [cbn; tauto|].
    cbn in H1. lia. }
  rewrite out_days_eq by exact Hm. rewrite nth_map_seq by exact Hd.
  split; [|split].
  - intros He. rewrite He in Hdec. cbn in Hdec. intuition discriminate.
  - rewrite length_map, length_seq. reflexivity.
  - unfold extract_cell. fold (cell inp m d). destruct (cell inp m d) as [code|] eqn:Hc.
    + destruct (String.eqb_spec code WorkCode.EMPTY) as [_|Hne]; cbn [negb].
      * right. exact Hdec.
      * left. exists code. auto.
    + right. exact Hdec.
Qed.

(* ------------------------------------------------------------------ *)
(** ** C5: PM then AM *)

Lemma in_pm_to_am inp m d :
  (m < num_members inp)%nat -> (S d < num_days inp)%nat ->
  In (pm_to_am_constraint m d) (pm_to_am_constraints inp).
Proof.
  intros Hm Hd. unfold pm_to_am_constraints. apply in_flat_map. exists m.
  split; [apply in_seq; lia|]. apply in_map, in_seq. lia.
Qed.

(** C5: for each member and each day [d] with [d + 1 < num_days] the
    builder adds [PM_HC[m,d] + PM_IA[m,d] + AM[m,d+1] <= 1]; hence no
    accepted assignment has a PM day followed by an AM day. *)
Theorem pm_to_am_forbidden (inp : InputData) :
  (forall m d : nat, (m < num_members inp)%nat -> (S d < num_days inp)%nat ->
     In (CLe (ladd (ladd (lvar (shift m d ShiftType.PM_HC)) (lvar (shift m d ShiftType.PM_IA)))
                   (lvar (shift m (S d) ShiftType.AM))) 1)
        (pm_to_am_constraints inp)) /\
  (forall (a : assignment) (m d : nat),
     accepted a (build_model inp) = true ->
     (m < num_members inp)%nat -> (S d < num_days inp)%nat ->
     Z.b2z (a (shift m d ShiftType.PM_HC)) + Z.b2z (a (shift m d ShiftType.PM_IA))
       + Z.b2z (a (shift m (S d) ShiftType.AM)) <= 1 /\
     ~ ((a (shift m d ShiftType.PM_HC) || a (shift m d ShiftType.PM_IA)) = true /\
        a (shift m (S d) ShiftType.AM) = true)).
Proof.
  split.
  - intros m d Hm Hd. apply (in_pm_to_am inp m d Hm Hd).
  - intros a m d Ha Hm Hd.
    assert (H : holds a (pm_to_am_constraint m d) = true)
      by (apply (accepted_hard a inp); [exact Ha|]; pose proof (in_pm_to_am inp m d Hm Hd); in_hard).
    unfold pm_to_am_constraint in H. cbn [holds] in H. apply Z.leb_le in H.
    rewrite !eval_ladd, !eval_lvar in H. split; [exact H|].
    intros [Hpm Hamt]. rewrite Hamt in H. apply orb_true_iff in Hpm.
    destruct Hpm as [E|E]; rewrite E in H; cbn [Z.b2z] in H;
      destruct (a _); cbn [Z.b2z] in H; lia.
Qed.

(* ------------------------------------------------------------------ *)
(** ** C6: run-length windows *)

Lemma window_bound a inp (flags : nat -> nat -> linexpr) (flagZ : assignment -> nat -> nat -> Z)
      (limit : Z) (m d : nat) :
  accepted a (build_model inp) = true ->
  (forall c, In c (window_constraints inp flags limit m) -> In c (continuous_work_constraints inp)) ->
  (forall m' d', eval a (flags m' d') = flagZ a m' d') ->
  Z.of_nat d + limit + 1 <= Z.of_nat (num_days inp) ->
  window_count flagZ a m d limit <= limit.
Proof.
  intros Ha Hsub Hfl Hd.
  set (c := CLe (lsum (map (fun i => flags m (d + i)%nat) (seq 0 (Z.to_nat (limit + 1))))) limit).
  assert (Hin : In c (window_constraints inp flags limit m)).
  { unfold window_constraints. apply in_map_iff. exists d. split; [reflexivity|].
    apply in_seq. lia. }
  assert (H : holds a c = true)
    by (apply (accepted_hard a inp); [exact Ha|]; pose proof (Hsub c Hin); in_hard).
  unfold c in H. cbn [holds] in H. apply Z.leb_le in H.
  rewrite eval_lsum, map_map in H. unfold window_count.
  erewrite map_ext in H by (intros i; apply Hfl). exact H.
Qed.

Lemma window_in_continuous inp m (k : nat) c :
  (m < num_members inp)%nat ->
  let lim := continuousWorkLimit (option_of inp) in
  (k = 0%nat /\ In c (window_constraints inp am_flags (cwl_am lim) m) \/
   k = 1%nat /\ In c (window_constraints inp pm_flags (cwl_pm lim) m) \/
   k = 2%nat /\ In c (window_constraints inp total_flags (cwl_total lim) m)) ->
  In c (continuous_work_constraints inp).
Proof.
  intros Hm lim H. unfold continuous_work_constraints. apply in_flat_map. exists m.
  split; [apply in_seq; lia|]. rewrite !in_app_iff. fold lim. tauto.
Qed.

(** C6: per member and per limit L of am, pm and total there is one
    window constraint per start day [d < num_days - L]; in every accepted
    assignment each window of L + 1 days that fits in the month holds at
    most L AM days, at most L PM days and at most L working days, each
    with its own limit. *)
Theorem continuous_work_windows (inp : InputData) :
  let lim := continuousWorkLimit (option_of inp) in
  (forall m : nat,
     length (window_constraints inp am_flags (cwl_am lim) m)
       = Z.to_nat (Z.of_nat (num_days inp) - cwl_am lim) /\
     length (window_constraints inp pm_flags (cwl_pm lim) m)
       = Z.to_nat (Z.of_nat (num_days inp) - cwl_pm lim) /\
     length (window_constraints inp total_flags (cwl_total lim) m)
       = Z.to_nat (Z.of_nat (num_days inp) - cwl_total lim)) /\
  (forall (a : assignment) (m : nat),
     accepted a (build_model inp) = true -> (m < num_members inp)%nat ->
     (forall d : nat, Z.of_nat d + cwl_am lim + 1 <= Z.of_nat (num_days inp) ->
        window_count am_flag a m d (cwl_am lim) <= cwl_am lim) /\
     (forall d : nat, Z.of_nat d + cwl_pm lim + 1 <= Z.of_nat (num_days inp) ->
        window_count pm_flag a m d (cwl_pm lim) <= cwl_pm lim) /\
     (forall d : nat, Z.of_nat d + cwl_total lim + 1 <= Z.of_nat (num_days inp) ->
        window_count total_flag a m d (cwl_total lim) <= cwl_total lim)).
Proof.
  intros lim. split.
  - intros m. unfold window_constraints. rewrite !length_map, !length_seq. auto.
  - intros a m Ha Hm. split; [|split]; intros d Hd.
    + apply (window_bound a inp am_flags am_flag); auto.
      * intros c Hc. apply (window_in_continuous inp m 0); auto.
      * intros; apply eval_lvar.
    + apply (window_bound a inp pm_flags pm_flag); auto.
      * intros c Hc. apply (window_in_continuous inp m 1); auto.
      * intros; unfold pm_flags, pm_flag. rewrite eval_ladd, !eval_lvar. reflexivity.
    + apply (window_bound a inp total_flags total_flag); auto.
      * intros c Hc. apply (window_in_continuous inp m 2); auto.
      * intros; unfold total_flags, total_flag. rewrite !eval_ladd, !eval_lvar. reflexivity.
Qed.

(* ------------------------------------------------------------------ *)
(** ** C7: workCodeAverage *)

(** C7: the model (variables, constraints, penalties, objective) built
    with workCodeAverage = "on" is the one built with "off". *)
Theorem workCodeAverage_no_effect (inp : InputData) :
  build_model (with_workCodeAverage inp "on") = build_model (with_workCodeAverage inp "off").
Proof.
  unfold build_model. rewrite !add_soft_constraints_eq. reflexivity.
Qed.

(* ------------------------------------------------------------------ *)
(** ** C8: _solve_multiple *)

Section MultiSolve.
Variables (inp : InputData) (model : CpModel) (solver : Backend) (elapsed : nat -> Z).

Let loop := multi_loop inp model solver elapsed 10000.

Definition ran_from (k i : nat) : Prop :=
  forall j, (k <= j <= i)%nat -> 0 < 10000 - elapsed j.

Lemma loop_step k rest acc :
  loop (k :: rest) acc =
  if 10000 - elapsed k <=? 0 then acc
  else loop rest (if status_ok (attempt_status model solver elapsed k)
                  then acc ++ [ex_schedule (extract_solution inp
                                 (snd (solver model (Some k) (Z.min (10000 - elapsed k) 5000))))]
                  else acc).
Proof.
  unfold loop. cbn [multi_loop]. destruct (10000 - elapsed k <=? 0); [reflexivity|].
  unfold attempt_status. destruct (solver model (Some k) _) as [st a]. cbn [fst snd].
  destruct (status_ok st); reflexivity.
Qed.

Lemma loop_len_bounds n : forall k acc,
  (length acc <= length (loop (seq k n) acc) <= length acc + n)%nat.
Proof.
  induction n as [|n IH]; intros k acc; [cbn; lia|].
  cbn [seq]. rewrite loop_step. destruct (10000 - elapsed k <=? 0); [lia|].
  destruct (status_ok _).
  - pose proof (IH (S k) (acc ++ [ex_schedule (extract_solution inp
                  (snd (solver model (Some k) (Z.min (10000 - elapsed k) 5000))))])) as H.
    rewrite length_app in H. cbn [length] in H. lia.
  - pose proof (IH (S k) acc). lia.
Qed.

Lemma loop_grows n : forall k acc,
  (exists i, (k <= i < k + n)%nat /\ ran_from k i /\
             status_ok (attempt_status model solver elapsed i) = true) <->
  (length acc < length (loop (seq k n) acc))%nat.
Proof.
  induction n as [|n IH]; intros k acc.
  - split; [intros [i [Hi _]]; lia|cbn; lia].
  - cbn [seq]. rewrite loop_step.
    destruct (10000 - elapsed k <=? 0) eqn:Er.
    + split; [|lia]. intros [i [Hi [Hr _]]]. specialize (Hr k ltac:(lia)).
      apply Z.leb_le in Er. lia.
    + apply Z.leb_gt in Er. split.
      * intros [i [Hi [Hr Hok]]].
        destruct (Nat.eq_dec i k) as [->|Hne].
        -- rewrite Hok. pose proof (loop_len_bounds n (S k)
             (acc ++ [ex_schedule (extract_solution inp
                (snd (solver model (Some k) (Z.min (10000 - elapsed k) 5000))))])) as H.
           rewrite length_app in H. cbn [length] in H. lia.
        -- assert (Hg : (length (if status_ok (attempt_status model solver elapsed k)
                     then acc ++ [ex_schedule (extract_solution inp
                            (snd (solver model (Some k) (Z.min (10000 - elapsed k) 5000))))]
                     else acc) <
                   length (loop (seq (S k) n)
                     (if status_ok (attempt_status model solver elapsed k)
                      then acc ++ [ex_schedule (extract_solution inp
                             (snd (solver model (Some k) (Z.min (10000 - elapsed k) 5000))))]
                      else acc)))%nat).
           { apply IH. exists i. split; [lia|]. split; [|exact Hok].
             intros j Hj. apply Hr. lia. }
           destruct (status_ok (attempt_status model solver elapsed k)); [rewrite length_app in Hg|]; cbn [length] in Hg; lia.
      * destruct (status_ok (attempt_status model solver elapsed k)) eqn:Eok.
        -- intros _. exists k. split; [lia|]. split; [|exact Eok].
           intros j Hj. replace j with k by lia. exact Er.
        -- intros Hlt. apply IH in Hlt. destruct Hlt as [i [Hi [Hr Hok]]].
           exists i. split; [lia|]. split; [|exact Hok].
           intros j Hj. destruct (Nat.eq_dec j k) as [->|Hne]; [exact Er|]. apply Hr. lia.
Qed.

End MultiSolve.

(** C8: in multi-solution mode ([num_solutions <> 1]), when an attempt
    that the time budget lets run is answered OPTIMAL or FEASIBLE,
    [generate] returns "success" with [count] = the number of schedules,
    between 1 and [num_solutions]; it returns "error" exactly when no such
    attempt exists, i.e. when no schedule was collected. *)
Theorem solve_multiple_graceful (inp : InputData) (solver : Backend) (elapsed : nat -> Z)
        (total_elapsed num_solutions : Z) :
  num_solutions <> 1 ->
  let r := generate inp solver elapsed total_elapsed num_solutions in
  let some_ok := exists i : nat, (i < Z.to_nat num_solutions)%nat /\ attempt_runs elapsed i /\
                   status_ok (attempt_status (build_model inp) solver elapsed i) = true in
  (some_ok ->
   exists schedules, r = MultiResult "success" schedules (length schedules) total_elapsed /\
     (1 <= length schedules)%nat /\ Z.of_nat (length schedules) <= num_solutions) /\
  ((exists msg, r = ErrorResult "error" msg) <-> ~ some_ok).
Proof.
  intros HN r some_ok.
  assert (Hr : r = solve_multiple inp (build_model inp) solver elapsed total_elapsed num_solutions).
  { unfold r, generate. apply Z.eqb_neq in HN. rewrite HN. reflexivity. }
  assert (Hiff : some_ok <->
     (0 < length (multi_loop inp (build_model inp) solver elapsed 10000
                    (seq 0 (Z.to_nat num_solutions)) []))%nat).
  { unfold some_ok. rewrite <- (loop_grows inp (build_model inp) solver elapsed
                                 (Z.to_nat num_solutions) 0 []).
    split; intros [i [Hi [Hrun Hok]]]; exists i; repeat split; auto; try lia;
      intros j Hj; apply Hrun; lia. }
  pose proof (loop_len_bounds inp (build_model inp) solver elapsed
                (Z.to_nat num_solutions) 0 []) as Hb.
  rewrite Hr. unfold solve_multiple.
  destruct (multi_loop inp (build_model inp) solver elapsed 10000
              (seq 0 (Z.to_nat num_solutions)) []) as [|s rest] eqn:El.
  - split.
    + intros Hok. apply Hiff in Hok. cbn in Hok. lia.
    + split; [intros _ Hok; apply Hiff in Hok; cbn in Hok; lia|].
      intros _. eexists. reflexivity.
  - split.
    + intros Hok. exists (s :: rest). split; [reflexivity|].
      cbn [length] in *. split; [lia|]. lia.
    + split; [intros [msg Hm]; discriminate|].
      intros Hn. exfalso. apply Hn, Hiff. cbn. lia.
Qed.

Lemma extract_shape inp a : schedule_shape inp (ex_schedule (extract_solution inp a)).
Proof.
  unfold extract_solution. cbn [ex_schedule]. split.
  - rewrite map_map. cbn [name]. unfold member, num_members. apply map_nth_seq_eq.
  - intros m Hm. rewrite nth_map_seq by exact Hm. cbn [days]. split.
    + rewrite length_map, length_seq. reflexivity.
    + intros d code Hd Hc Hne. rewrite nth_map_seq by exact Hd. unfold extract_cell.
      fold (cell inp m d). rewrite Hc.
      destruct (String.eqb_spec code WorkCode.EMPTY) as [E|E]; [contradiction|reflexivity].
Qed.

Lemma multi_loop_forall inp model solver elapsed mt (P : list MemberSchedule -> Prop) is acc :
  (forall a, P (ex_schedule (extract_solution inp a))) -> Forall P acc ->
  Forall P (multi_loop inp model solver elapsed mt is acc).
Proof.
  intros HP. revert acc; induction is as [|i is IH]; intros acc Hacc; cbn [multi_loop]; [exact Hacc|].
  destruct (mt - elapsed i <=? 0); [exact Hacc|].
  destruct (solver model (Some i) (Z.min (mt - elapsed i) 5000)) as [st a].
  apply IH. destruct (status_ok st); [|exact Hacc].
  cbn [ex_status extract_solution]. rewrite String.eqb_refl.
  apply Forall_app. split; [exact Hacc|]. constructor; [apply HP|constructor].
Qed.

Lemma cell_some_member inp m d code :
  cell inp m d = Some code -> (m < num_members inp)%nat.
Proof.
  intros Hc. destruct (Nat.lt_ge_cases m (num_members inp)) as [H|H]; [exact H|].
  unfold cell, member, num_members in *. rewrite nth_overflow in Hc by exact H.
  discriminate.
Qed.

(* ------------------------------------------------------------------ *)
(** ** C3: codes outside the vocabulary *)

Lemma category_vocabulary code s : code_category code = Some s -> In code vocabulary.
Proof.
  unfold code_category, vocabulary.
  destruct (String.eqb code WorkCode.EMPTY); [discriminate|].
  destruct (str_in code [WorkCode.RQ; WorkCode.R]) eqn:E1;
    [intros _; apply str_in_In in E1; cbn [In] in *; tauto|].
  destruct (str_in code [WorkCode.Z; WorkCode.ZT]) eqn:E2;
    [intros _; apply str_in_In in E2; cbn [In] in *; tauto|].
  destruct (str_in code [WorkCode.HC; WorkCode.HCT]) eqn:E3;
    [intros _; apply str_in_In in E3; cbn [In] in *; tauto|].
  destruct (str_in code [WorkCode.IA; WorkCode.IAT]) eqn:E4;
    [intros _; apply str_in_In in E4; cbn [In] in *; tauto|].
  destruct (String.eqb_spec code WorkCode.DT) as [->|_]; [|discriminate].
  intros _. cbn [In]. tauto.
Qed.

(** C3 (as the code has it): a non-empty pre-filled code outside the
    vocabulary is not validated: no constraint pins its cell, the extractor
    copies it verbatim, and [generate] answers "success" whenever the
    backend answers OPTIMAL or FEASIBLE: in single mode the returned
    schedule holds the code at that cell (when the day is in the month);
    in multi-solution mode, once an attempt that runs is answered OPTIMAL
    or FEASIBLE, every returned schedule holds it. *)
Theorem unknown_code_passes_through (inp : InputData) (m d : nat) (code : string) :
  cell inp m d = Some code -> code <> WorkCode.EMPTY -> ~ In code vocabulary ->
  pin_code m d code = [] /\
  (forall a : assignment, extract_cell inp a m d = code) /\
  (forall (solver : Backend) (elapsed : nat -> Z) (te : Z) (st : cp_status) (a : assignment),
     solver (build_model inp) None 60000 = (st, a) -> status_ok st = true ->
     generate inp solver elapsed te 1 = SingleResult "success" (ex_schedule (extract_solution inp a)) /\
     ((d < num_days inp)%nat ->
        nth d (days (nth m (ex_schedule (extract_solution inp a)) default_member)) "" = code)) /\
  (forall (solver : Backend) (elapsed : nat -> Z) (te num_solutions : Z),
     num_solutions <> 1 ->
     (exists i : nat, (i < Z.to_nat num_solutions)%nat /\ attempt_runs elapsed i /\
        status_ok (attempt_status (build_model inp) solver elapsed i) = true) ->
     exists schedules,
       generate inp solver elapsed te num_solutions
         = MultiResult "success" schedules (length schedules) te /\
       (1 <= length schedules)%nat /\
       ((d < num_days inp)%nat ->
          Forall (fun sch => nth d (days (nth m sch default_member)) "" = code) schedules)).
Proof.
  intros Hc Hne Hnv. pose proof (cell_some_member inp m d code Hc) as Hm.
  assert (Hcell : forall a, (d < num_days inp)%nat ->
            nth d (days (nth m (ex_schedule (extract_solution inp a)) default_member)) "" = code).
  { intros a Hd. apply (proj2 (proj2 (extract_shape inp a) m Hm)); assumption. }
  split; [|split; [|split]].
  - rewrite pin_code_category. destruct (code_category code) as [s|] eqn:Ec; [|reflexivity].
    exfalso. apply Hnv, (category_vocabulary code s Ec).
  - intros a. unfold extract_cell. fold (cell inp m d). rewrite Hc.
    destruct (String.eqb_spec code WorkCode.EMPTY); [contradiction|reflexivity].
  - intros solver elapsed te st a Hs Hok. split; [|apply Hcell].
    unfold generate. cbn [Z.eqb Pos.eqb].
    unfold solve_single. rewrite Hs. destruct st; try discriminate; reflexivity.
  - intros solver elapsed te n HN Hsome.
    assert (Hlen : (0 < length (multi_loop inp (build_model inp) solver elapsed 10000
                                   (seq 0 (Z.to_nat n)) []))%nat).
    { apply (loop_grows inp (build_model inp) solver elapsed (Z.to_nat n) 0 []).
      destruct Hsome as [i [Hi [Hrun Hok]]]. exists i. split; [lia|]. split; [|exact Hok].
      intros j Hj. apply Hrun. lia. }
    pose proof (fun Hd => multi_loop_forall inp (build_model inp) solver elapsed 10000
                  (fun sch => nth d (days (nth m sch default_member)) "" = code)
                  (seq 0 (Z.to_nat n)) [] (fun a => Hcell a Hd) (List.Forall_nil _)) as HF.
    unfold generate. apply Z.eqb_neq in HN. rewrite HN. unfold solve_multiple.
    destruct (multi_loop inp (build_model inp) solver elapsed 10000 (seq 0 (Z.to_nat n)) [])
      as [|s0 ss]; [cbn in Hlen; lia|].
    exists (s0 :: ss). split; [reflexivity|]. split; [cbn; lia|exact HF].
Qed.

(* ------------------------------------------------------------------ *)
(** ** Further properties of the calendar, builder, extraction and generate *)

Lemma div_step (k y : Z) : 0 < k ->
  y / k - (y - 1) / k = if Z.eqb (y mod k) 0 then 1 else 0.
Proof.
  intros Hk. pose proof (Z.div_mod y k ltac:(lia)) as E1.
  pose proof (Z.div_mod (y - 1) k ltac:(lia)) as E2.
  pose proof (Z.mod_pos_bound y k Hk). pose proof (Z.mod_pos_bound (y - 1) k Hk).
  destruct (Z.eqb_spec (y mod k) 0) as [Hz|Hz].
  - assert (k * (y / k - (y - 1) / k) = 1 + (y - 1) mod k) by lia.
    assert (y / k - (y - 1) / k <= 1) by nia. assert (y / k - (y - 1) / k >= 1) by nia. lia.
  - assert (k * (y / k - (y - 1) / k) = (y - 1) mod k + 1 - y mod k) by lia.
    assert (y / k - (y - 1) / k <= 0) by nia. assert (y / k - (y - 1) / k >= 0) by nia. lia.
Qed.

Lemma days_before_year_step y :
  days_before_year (y + 1) = days_before_year y + 365 + (if is_leap y then 1 else 0).
Proof.
  unfold days_before_year, is_leap. replace (y + 1 - 1) with y by lia.
  pose proof (div_step 4 y ltac:(lia)). pose proof (div_step 100 y ltac:(lia)).
  pose proof (div_step 400 y ltac:(lia)).
  assert (A : y mod 400 = 0 -> y mod 100 = 0).
  { intros Hm. apply Z.mod_divide in Hm; [|lia]. apply Z.mod_divide; [lia|].
    destruct Hm as [c ->]. exists (4 * c). lia. }
  assert (B : y mod 100 = 0 -> y mod 4 = 0).
  { intros Hm. apply Z.mod_divide in Hm; [|lia]. apply Z.mod_divide; [lia|].
    destruct Hm as [c ->]. exists (25 * c). lia. }
  destruct (Z.eqb_spec (y mod 4) 0); destruct (Z.eqb_spec (y mod 100) 0);
    destruct (Z.eqb_spec (y mod 400) 0); cbn [andb orb negb] in *;
    try (exfalso; intuition congruence); lia.
Qed.

Lemma month_length_calc (y mo : Z) :
  mo = 1 \/ mo = 3 \/ mo = 5 \/ mo = 7 \/ mo = 8 \/ mo = 10 \/ mo = 12 \/
  mo = 4 \/ mo = 6 \/ mo = 9 \/ mo = 11 \/ mo = 2 ->
  (if mo =? 12 then toordinal (y + 1) 1 1 else toordinal y (mo + 1) 1) - toordinal y mo 1
  = match mo with 4 | 6 | 9 | 11 => 30 | 2 => if is_leap y then 29 else 28 | _ => 31 end.
Proof.
  intros H. unfold toordinal, days_before_month.
  repeat destruct H as [->|H]; subst;
    repeat match goal with
    | |- context [?a =? 12] => let v := eval vm_compute in (a =? 12) in change (a =? 12) with v
    | |- context [DAYS_BEFORE_MONTH ?a] =>
        let v := eval vm_compute in (DAYS_BEFORE_MONTH a) in change (DAYS_BEFORE_MONTH a) with v
    | |- context [2 <? ?a] => let v := eval vm_compute in (2 <? a) in change (2 <? a) with v
    end; cbn [andb];
    try rewrite days_before_year_step; destruct (is_leap y); lia.
Qed.

(** Extra (days_in_month_table): _get_days_in_month gives 31, 30, or 28/29 days by month and leap year. *)
Theorem days_in_month_table (inp : InputData) :
  let y := targetYear (option_of inp) in
  let mo := targetMonth (option_of inp) in
  1 <= y <= 9998 ->
  (In mo [1; 3; 5; 7; 8; 10; 12] -> num_days inp = 31%nat) /\
  (In mo [4; 6; 9; 11] -> num_days inp = 30%nat) /\
  (mo = 2 -> num_days inp = (if is_leap y then 29 else 28)%nat).
Proof.
  unfold num_days, get_days_in_month. cbv zeta.
  generalize (targetYear (option_of inp)) (targetMonth (option_of inp)). intros y mo Hy.
  split; [|split]; intros H.
  - rewrite month_length_calc by (cbn in H; lia).
    cbn in H. repeat destruct H as [<-|H]; try contradiction; reflexivity.
  - rewrite month_length_calc by (cbn in H; lia).
    cbn in H. repeat destruct H as [<-|H]; try contradiction; reflexivity.
  - rewrite month_length_calc by lia. subst. destruct (is_leap y); reflexivity.
Qed.

Lemma mod7_shift a b : ((a mod 7 + 1) mod 7 + b) mod 7 = (a + 1 + b) mod 7.
Proof.
  rewrite Z.add_mod_idemp_l by lia. rewrite <- Z.add_assoc, Z.add_mod_idemp_l by lia.
  f_equal. lia.
Qed.

Lemma day_of_week_shift inp d k :
  get_day_of_week inp (d + k) = (get_day_of_week inp d + Z.of_nat k) mod 7.
Proof.
  unfold get_day_of_week, toordinal. rewrite mod7_shift.
  rewrite Z.add_mod_idemp_l by lia. f_equal. lia.
Qed.

(** Extra (day_of_week_step): _get_day_of_week advances by one modulo 7 from one day of the month to the next. *)
Theorem day_of_week_step (inp : InputData) (d : nat) :
  1 <= targetMonth (option_of inp) <= 12 -> 1 <= targetYear (option_of inp) <= 9999 ->
  (S d < num_days inp)%nat ->
  0 <= get_day_of_week inp d < 7 /\
  get_day_of_week inp (S d) = (get_day_of_week inp d + 1) mod 7.
Proof.
  intros _ _ _. split.
  - unfold get_day_of_week. apply Z.mod_pos_bound. lia.
  - replace (S d) with (d + 1)%nat by lia. apply day_of_week_shift.
Qed.

(** Extra (reduced_day_weekly): whether a day has reduced staffing repeats every seven days. *)
Theorem reduced_day_weekly (inp : InputData) (d : nat) :
  1 <= targetMonth (option_of inp) <= 12 -> 1 <= targetYear (option_of inp) <= 9999 ->
  (d + 7 < num_days inp)%nat ->
  is_reduced_day inp (d + 7) = is_reduced_day inp d.
Proof.
  intros _ _ _. unfold is_reduced_day. rewrite day_of_week_shift.
  replace ((get_day_of_week inp d + Z.of_nat 7) mod 7) with (get_day_of_week inp d); [reflexivity|].
  assert (Hg : 0 <= get_day_of_week inp d < 7)
    by (unfold get_day_of_week; apply Z.mod_pos_bound; lia).
  change (Z.of_nat 7) with 7. rewrite <- Z.add_mod_idemp_r by lia.
  rewrite Z_mod_same_full, Z.add_0_r, Z.mod_small by lia. reflexivity.
Qed.

Lemma in_rq_adjacent inp m d c :
  (m < num_members inp)%nat -> (d < num_days inp)%nat ->
  In c (rq_adjacent inp m d) -> In c (rq_adjacent_constraints inp).
Proof.
  intros Hm Hd Hc. unfold rq_adjacent_constraints. apply in_flat_map. exists m.
  split; [apply in_seq; lia|]. apply in_flat_map. exists d. split; [apply in_seq; lia|exact Hc].
Qed.

Lemma holds_off_zero a inp m d :
  accepted a (build_model inp) = true ->
  In (CEq (lvar (shift m d ShiftType.OFF)) 0) (rq_adjacent_constraints inp) ->
  a (shift m d ShiftType.OFF) = false.
Proof.
  intros Ha Hin.
  assert (H : holds a (CEq (lvar (shift m d ShiftType.OFF)) 0) = true)
    by (apply (accepted_hard a inp); [exact Ha|]; in_hard).
  cbn [holds] in H. apply Z.eqb_eq in H. rewrite eval_lvar in H.
  destruct (a _); [discriminate|reflexivity].
Qed.

Lemma extract_cell_free inp a m d :
  cell inp m d = None \/ cell inp m d = Some WorkCode.EMPTY ->
  extract_cell inp a m d = decided_code a m d.
Proof.
  unfold extract_cell. fold (cell inp m d). intros [-> | ->]; reflexivity.
Qed.

Lemma decided_work_code inp a m d :
  accepted a (build_model inp) = true ->
  (m < num_members inp)%nat -> (d < num_days inp)%nat ->
  a (shift m d ShiftType.OFF) = false ->
  In (decided_code a m d) [WorkCode.Z; WorkCode.HC; WorkCode.IA].
Proof.
  intros Ha Hm Hd Hoff.
  assert (Hb : holds a (basic_constraint m d) = true)
    by (apply (accepted_hard a inp); [exact Ha|]; pose proof (in_basic inp m d Hm Hd); in_hard).
  apply basic_sum in Hb. unfold decided_code. rewrite Hoff in *.
  destruct (a (shift m d ShiftType.AM)); [cbn; tauto|].
  destruct (a (shift m d ShiftType.PM_HC)); [cbn; tauto|].
  destruct (a (shift m d ShiftType.PM_IA)); [cbn; tauto|].
  cbn in Hb. lia.
Qed.

Lemma rq_neighbour_off_false inp a m d d' :
  accepted a (build_model inp) = true ->
  (m < num_members inp)%nat -> (d < num_days inp)%nat -> (d' < num_days inp)%nat ->
  In (CEq (lvar (shift m d' ShiftType.OFF)) 0) (rq_adjacent inp m d) ->
  cell inp m d' = None \/ cell inp m d' = Some WorkCode.EMPTY ->
  In (extract_cell inp a m d') [WorkCode.Z; WorkCode.HC; WorkCode.IA].
Proof.
  intros Ha Hm Hd Hd' Hin Hfree. rewrite extract_cell_free by exact Hfree.
  apply (decided_work_code inp); [exact Ha|exact Hm|exact Hd'|].
  apply (holds_off_zero a inp); [exact Ha|]. apply (in_rq_adjacent inp m d); assumption.
Qed.

(** Extra (rq_neighbours_not_off): in an accepted model, empty cells next to an RQ are
    extracted as a work code Z, HC or IA, never as R, RQ, DT or the empty fallback. *)
Theorem rq_neighbours_not_off (inp : InputData) (a : assignment) (m d : nat) :
  accepted a (build_model inp) = true ->
  (m < num_members inp)%nat -> (d < num_days inp)%nat ->
  cell inp m d = Some WorkCode.RQ ->
  ((0 < d)%nat -> cell inp m (d - 1) = Some WorkCode.EMPTY ->
     In (extract_cell inp a m (d - 1)) [WorkCode.Z; WorkCode.HC; WorkCode.IA]) /\
  ((S d < num_days inp)%nat ->
     cell inp m (S d) = None \/ cell inp m (S d) = Some WorkCode.EMPTY ->
     In (extract_cell inp a m (S d)) [WorkCode.Z; WorkCode.HC; WorkCode.IA]).
Proof.
  intros Ha Hm Hd Hc. split.
  - intros Hpos Hprev. apply (rq_neighbour_off_false inp a m d);
      [exact Ha|exact Hm|exact Hd|lia| |right; exact Hprev].
    unfold rq_adjacent. cbv zeta. unfold cell in Hc, Hprev. rewrite Hc, Hprev.
    rewrite String.eqb_refl. replace (Nat.ltb 0 d) with true by (symmetry; apply Nat.ltb_lt; lia).
    cbn [andb]. apply in_or_app. left. left. reflexivity.
  - intros Hlt Hnext. apply (rq_neighbour_off_false inp a m d);
      [exact Ha|exact Hm|exact Hd|exact Hlt| |exact Hnext].
    unfold rq_adjacent. cbv zeta. unfold cell in Hc, Hnext. rewrite Hc.
    rewrite String.eqb_refl. replace (Nat.ltb d (num_days inp - 1)) with true
      by (symmetry; apply Nat.ltb_lt; lia).
    replace (Nat.leb (length (days (member inp m))) (S d)
             || match days (member inp m) !! S d with
                | Some c => String.eqb c WorkCode.EMPTY | None => false end) with true.
    + cbn [andb]. apply in_or_app. right. left. reflexivity.
    + destruct Hnext as [Hn|Hn].
      * apply lookup_ge_None in Hn. symmetry. apply orb_true_iff. left. apply Nat.leb_le. lia.
      * rewrite Hn, String.eqb_refl, orb_true_r. reflexivity.
Qed.

Lemma consecutive_off_fold l st :
  model_constraints (fold_left consecutive_off_step l st)
    = model_constraints st ++ flat_map stream_constraints l /\
  penalties (fold_left consecutive_off_step l st)
    = penalties st ++ map (fun '(m, d) => (-5, consecutive_off m d)) l /\
  objective (fold_left consecutive_off_step l st) = objective st.
Proof.
  revert st; induction l as [|[m d] l IH]; intros st; cbn [fold_left flat_map map].
  - rewrite !app_nil_r. auto.
  - destruct (IH (consecutive_off_step st (m, d))) as [H1 [H2 H3]]. rewrite H1, H2, H3.
    cbn. rewrite <- !app_assoc. auto.
Qed.

Lemma build_model_soft inp :
  let on := String.eqb (dayOffStream (option_of inp)) "on" in
  model_constraints (build_model inp)
    = hard_constraints inp ++ (if on then flat_map stream_constraints (stream_pairs inp) else []) /\
  penalties (build_model inp)
    = (if on then map (fun '(m, d) => (-5, consecutive_off m d)) (stream_pairs inp) else []) /\
  objective (build_model inp)
    = match penalties (build_model inp) with
      | [] => None
      | ps => Some (lsum (map (fun '(w, v) => lscale w (lvar v)) ps))
      end.
Proof.
  cbv zeta. unfold build_model.
  match goal with |- context [add_soft_constraints inp ?st] => set (st0 := st) end.
  assert (E : model_constraints (add_soft_constraints inp st0)
                = hard_constraints inp ++ (if String.eqb (dayOffStream (option_of inp)) "on"
                   then flat_map stream_constraints (stream_pairs inp) else []) /\
              penalties (add_soft_constraints inp st0)
                = (if String.eqb (dayOffStream (option_of inp)) "on"
                   then map (fun '(m, d) => (-5, consecutive_off m d)) (stream_pairs inp) else []) /\
              objective (add_soft_constraints inp st0) = None).
  { rewrite add_soft_constraints_eq.
    assert (Hc : model_constraints st0 = hard_constraints inp)
      by (subst st0; cbn; unfold hard_constraints; rewrite <- !app_assoc; reflexivity).
    destruct (String.eqb _ "on").
    - destruct (consecutive_off_fold (flat_map (fun m => map (fun d => (m, d))
                  (seq 0 (num_days inp - 1))) (seq 0 (num_members inp))) st0) as [H1 [H2 H3]].
      rewrite H1, H2, H3, Hc. auto.
    - rewrite Hc, app_nil_r. auto. }
  destruct E as [E1 [E2 E3]].
  unfold set_objective. destruct (penalties (add_soft_constraints inp st0)) as [|p ps] eqn:Ep.
  - rewrite <- E2, E1, E3, Ep. auto.
  - cbn. split; [exact E1|]. split; [exact E2|reflexivity].
Qed.

Lemma in_stream_pairs inp m d :
  In (m, d) (stream_pairs inp) <-> (m < num_members inp)%nat /\ (S d < num_days inp)%nat.
Proof.
  unfold stream_pairs. rewrite in_flat_map. split.
  - intros [m' [Hm' Hin]]. apply in_map_iff in Hin. destruct Hin as [d' [Heq Hd']].
    injection Heq as -> ->. apply in_seq in Hm'. apply in_seq in Hd'. lia.
  - intros [Hm Hd]. exists m. split; [apply in_seq; lia|].
    apply in_map_iff. exists d. split; [reflexivity|apply in_seq; lia].
Qed.

Lemma stream_pairs_nil inp :
  stream_pairs inp = [] <-> num_members inp = 0%nat \/ (num_days inp <= 1)%nat.
Proof.
  split.
  - intros H. destruct (num_members inp) as [|k] eqn:Em; [left; reflexivity|]. right.
    destruct (num_days inp - 1)%nat as [|j] eqn:Ed; [lia|].
    unfold stream_pairs in H. rewrite Em, Ed in H. discriminate.
  - intros [H|H]; unfold stream_pairs; [rewrite H; reflexivity|].
    replace (num_days inp - 1)%nat with 0%nat by lia.
    induction (seq 0 (num_members inp)); cbn; auto.
Qed.

Lemma consecutive_off_value inp a m d :
  dayOffStream (option_of inp) = "on" ->
  accepted a (build_model inp) = true ->
  (m < num_members inp)%nat -> (S d < num_days inp)%nat ->
  a (consecutive_off m d) = a (shift m d ShiftType.OFF) && a (shift m (S d) ShiftType.OFF).
Proof.
  intros Hon Ha Hm Hd. destruct (build_model_soft inp) as [Hc _]. cbv zeta in Hc.
  rewrite Hon, String.eqb_refl in Hc.
  unfold accepted in Ha. rewrite Hc, forallb_app in Ha. apply andb_prop in Ha as [_ Hs].
  rewrite forallb_forall in Hs.
  assert (Hp : In (m, d) (stream_pairs inp)) by (apply in_stream_pairs; auto).
  assert (H1 : holds a (CEnforce (CEq (ladd (lvar (shift m d ShiftType.OFF))
                 (lvar (shift m (S d) ShiftType.OFF))) 2) (Pos (consecutive_off m d))) = true).
  { apply Hs, in_flat_map. exists (m, d). split; [exact Hp|left; reflexivity]. }
  assert (H2 : holds a (CEnforce (CLt (ladd (lvar (shift m d ShiftType.OFF))
                 (lvar (shift m (S d) ShiftType.OFF))) 2) (Neg (consecutive_off m d))) = true).
  { apply Hs, in_flat_map. exists (m, d). split; [exact Hp|right; left; reflexivity]. }
  cbn [holds lit_val] in H1, H2. rewrite eval_ladd, !eval_lvar in H1, H2.
  destruct (a (consecutive_off m d)), (a (shift m d ShiftType.OFF)),
    (a (shift m (S d) ShiftType.OFF)); vm_compute in H1, H2 |- *; congruence.
Qed.

(** Extra (consecutive_off_indicator): with dayOffStream "on", an accepted model sets each consecutive-off indicator to the conjunction of the two OFF variables. *)
Theorem consecutive_off_indicator (inp : InputData) (a : assignment) (m d : nat) :
  dayOffStream (option_of inp) = "on" ->
  accepted a (build_model inp) = true ->
  (m < num_members inp)%nat -> (S d < num_days inp)%nat ->
  a (consecutive_off m d) = a (shift m d ShiftType.OFF) && a (shift m (S d) ShiftType.OFF).
Proof. apply consecutive_off_value. Qed.

Lemma zsum_scale {A} (f : A -> Z) (k : Z) (l : list A) :
  zsum (map (fun x => k * f x) l) = k * zsum (map f l).
Proof.
  induction l as [|x l IH]; cbn [map]; rewrite ?zsum_cons, ?zsum_nil; [lia|]. rewrite IH. lia.
Qed.

Lemma objective_match_some (ps : list (Z * var)) e :
  Some e = match ps with
           | [] => None
           | p :: l => Some (lsum (map (fun '(w, v) => lscale w (lvar v)) (p :: l)))
           end ->
  e = lsum (map (fun '(w, v) => lscale w (lvar v)) ps).
Proof. destruct ps; [discriminate|]. intros H. injection H. auto. Qed.

(** Extra (objective_counts_consecutive_off): the objective equals -5 times the number of consecutive OFF pairs. *)
Theorem objective_counts_consecutive_off (inp : InputData) (a : assignment) (e : linexpr) :
  accepted a (build_model inp) = true -> objective (build_model inp) = Some e ->
  eval a e = -5 * consecutive_off_count inp a.
Proof.
  intros Ha He. destruct (build_model_soft inp) as [_ [Hp Ho]]. cbv zeta in Hp.
  rewrite Hp in Ho. rewrite He in Ho.
  destruct (String.eqb_spec (dayOffStream (option_of inp)) "on") as [Hon|Hoff]; [|discriminate].
  apply objective_match_some in Ho. subst e. rewrite eval_lsum, !map_map. unfold consecutive_off_count.
  rewrite <- zsum_scale. apply zsum_map_ext. intros [m d] Hin.
  apply in_stream_pairs in Hin. destruct Hin as [Hm Hd].
  rewrite eval_lscale, eval_lvar, (consecutive_off_value inp a m d Hon Ha Hm Hd). reflexivity.
Qed.

(** Extra (objective_absent): the penalties are exactly the -5 consecutive-off terms of the
    dayOffStream loop (none from workCodeAverage), and no objective is set exactly when the
    stream option is not "on", there are no members, or the month has at most one day. *)
Theorem objective_absent (inp : InputData) :
  penalties (build_model inp)
    = (if String.eqb (dayOffStream (option_of inp)) "on"
       then map (fun '(m, d) => (-5, consecutive_off m d)) (stream_pairs inp) else []) /\
  (objective (build_model inp) = None <->
   dayOffStream (option_of inp) <> "on" \/ num_members inp = 0%nat \/ (num_days inp <= 1)%nat).
Proof.
  destruct (build_model_soft inp) as [_ [Hp Ho]]. cbv zeta in Hp. split; [exact Hp|].
  rewrite Ho, Hp.
  destruct (String.eqb_spec (dayOffStream (option_of inp)) "on") as [Hon|Hoff].
  - destruct (map (fun '(m, d) => (-5, consecutive_off m d)) (stream_pairs inp)) as [|p ps] eqn:Em.
    + apply map_eq_nil in Em. apply stream_pairs_nil in Em. split; [intros _; right; exact Em|reflexivity].
    + split; [discriminate|]. intros [H|H]; [contradiction|].
      apply stream_pairs_nil in H. rewrite H in Em. discriminate.
  - split; [intros _; left; exact Hoff|reflexivity].
Qed.

(** Extra (extract_solution_shape): _extract_solution always succeeds and returns a schedule of the input shape. *)
Theorem extract_solution_shape (inp : InputData) (a : assignment) :
  ex_status (extract_solution inp a) = "success" /\
  schedule_shape inp (ex_schedule (extract_solution inp a)).
Proof. split; [reflexivity|apply extract_shape]. Qed.

(** Extra (generate_schedules_shape): every schedule returned by generate has the input shape; multi results are non-empty and counted. *)
Theorem generate_schedules_shape (inp : InputData) (solver : Backend) (elapsed : nat -> Z)
        (total_elapsed num_solutions : Z) :
  (forall status sch,
     generate inp solver elapsed total_elapsed num_solutions = SingleResult status sch ->
     status = "success" /\ schedule_shape inp sch) /\
  (forall status schs count t,
     generate inp solver elapsed total_elapsed num_solutions = MultiResult status schs count t ->
     status = "success" /\ count = length schs /\ (1 <= count)%nat /\
     Forall (schedule_shape inp) schs).
Proof.
  unfold generate. destruct (Z.eqb num_solutions 1).
  - split; [|intros ? ? ? ? H; unfold solve_single in H;
               destruct (solver _ _ _) as [[] a]; discriminate].
    intros status sch H. unfold solve_single in H.
    destruct (solver (build_model inp) None 60000) as [st a].
    destruct st; try discriminate; injection H as <- <-; split; auto; apply extract_shape.
  - split; [intros ? ? H; unfold solve_multiple in H; destruct (multi_loop _ _ _ _ _ _ _);
            discriminate|].
    intros status schs count t H. unfold solve_multiple in H.
    pose proof (multi_loop_forall inp (build_model inp) solver elapsed 10000 (schedule_shape inp)
                  (seq 0 (Z.to_nat num_solutions)) [] (extract_shape inp) (List.Forall_nil _)) as HF.
    destruct (multi_loop _ _ _ _ _ _ _) as [|s0 ss]; [discriminate|].
    injection H as <- <- <- _. split; [reflexivity|]. split; [reflexivity|].
    split; [cbn; lia|exact HF].
Qed.

(** Extra (nonpositive_solutions_error): a non-positive numSolutions gives an error result
    that no solver call or time check influences; the message only carries the search time. *)
Theorem nonpositive_solutions_error (inp : InputData) (num_solutions : Z) :
  num_solutions <= 0 ->
  forall (solver : Backend) (elapsed : nat -> Z) (total_elapsed : Z),
    generate inp solver elapsed total_elapsed num_solutions
    = ErrorResult "error" (multi_error_message total_elapsed).
Proof.
  intros Hn solver elapsed te.
  unfold generate. replace (Z.eqb num_solutions 1) with false by (symmetry; apply Z.eqb_neq; lia).
  unfold solve_multiple. replace (Z.to_nat num_solutions) with 0%nat by lia. reflexivity.
Qed.

Lemma multi_loop_caps inp model (s1 s2 : Backend) elapsed is acc :
  (forall i t, In i is -> 0 < t <= 5000 -> t <= 10000 - elapsed i ->
     s1 model (Some i) t = s2 model (Some i) t) ->
  multi_loop inp model s1 elapsed 10000 is acc = multi_loop inp model s2 elapsed 10000 is acc.
Proof.
  revert acc; induction is as [|i is IH]; intros acc Hs; cbn [multi_loop]; [reflexivity|].
  destruct (10000 - elapsed i <=? 0) eqn:Er; [reflexivity|]. apply Z.leb_gt in Er.
  rewrite (Hs i (Z.min (10000 - elapsed i) 5000)) by (try (left; reflexivity); lia).
  destruct (s2 model (Some i) (Z.min (10000 - elapsed i) 5000)) as [st a].
  apply IH. intros j t Hj. apply Hs. right. exact Hj.
Qed.

(** Extra (solve_multiple_time_caps): multi-solution generate only depends on solver answers for seeds below numSolutions and time limits within the remaining budget and 5000 ms. *)
Theorem solve_multiple_time_caps (inp : InputData) (s1 s2 : Backend) (elapsed : nat -> Z)
        (total_elapsed num_solutions : Z) :
  num_solutions <> 1 ->
  (forall (i : nat) (t : Z), (i < Z.to_nat num_solutions)%nat -> 0 < t <= 5000 ->
     t <= 10000 - elapsed i ->
     s1 (build_model inp) (Some i) t = s2 (build_model inp) (Some i) t) ->
  generate inp s1 elapsed total_elapsed num_solutions
  = generate inp s2 elapsed total_elapsed num_solutions.
Proof.
  intros Hn Hs. unfold generate. replace (Z.eqb num_solutions 1) with false
    by (symmetry; apply Z.eqb_neq; exact Hn).
  unfold solve_multiple. rewrite (multi_loop_caps inp (build_model inp) s1 s2); [reflexivity|].
  intros i t Hi. apply in_seq in Hi. apply Hs. lia.
Qed.

Lemma in_predefined_loop_inv inp m ds : forall d0 c,
  In c (predefined_loop inp m d0 ds) ->
  exists k code s, ds !! k = Some code /\ (d0 + k < num_days inp)%nat /\
    code_category code = Some s /\ c = CEq (lvar (shift m (d0 + k) s)) 1.
Proof.
  induction ds as [|code rest IH]; intros d0 c H; cbn [predefined_loop] in H; [contradiction|].
  destruct (Nat.leb (num_days inp) d0) eqn:Ed; [contradiction|]. apply Nat.leb_gt in Ed.
  apply in_app_or in H. destruct H as [H|H].
  - rewrite pin_code_category in H. destruct (code_category code) as [s|] eqn:Ec; [|contradiction].
    destruct H as [<-|[]]. exists 0%nat, code, s. rewrite Nat.add_0_r. auto.
  - destruct (IH (S d0) c H) as [k [code' [s [Hk [Hlt [Hc ->]]]]]].
    exists (S k), code', s. rewrite <- Nat.add_succ_comm. auto.
Qed.

Lemma code_category_nonempty code s : code_category code = Some s -> code <> WorkCode.EMPTY.
Proof. intros H ->. discriminate. Qed.

(** Extra (predefined_pins_in_month): every pin constraint refers to a member and day within the month and a non-empty cell of a known category. *)
Theorem predefined_pins_in_month (inp : InputData) (c : constr) :
  In c (predefined_constraints inp) ->
  exists m d code s, (m < num_members inp)%nat /\ (d < num_days inp)%nat /\
    cell inp m d = Some code /\ code <> WorkCode.EMPTY /\ code_category code = Some s /\
    c = CEq (lvar (shift m d s)) 1.
Proof.
  intros H. unfold predefined_constraints in H. apply in_flat_map in H.
  destruct H as [m [Hm H]]. apply in_seq in Hm.
  destruct (in_predefined_loop_inv inp m _ 0 c H) as [d [code [s [Hd [Hlt [Hc ->]]]]]].
  exists m, d, code, s. cbn [Nat.add] in *. repeat split; auto; [lia|].
  eapply code_category_nonempty; eauto.
Qed.

Lemma is_off_code_eq c :
  is_off_code c = String.eqb c WorkCode.R || String.eqb c WorkCode.RQ || String.eqb c WorkCode.DT.
Proof. unfold is_off_code, str_in. cbn [existsb]. rewrite orb_false_r, orb_assoc. reflexivity. Qed.

Lemma off_filter_counts l :
  length (List.filter is_off_code l)
  = (list_count l WorkCode.R + list_count l WorkCode.RQ + list_count l WorkCode.DT)%nat.
Proof.
  unfold list_count. induction l as [|c l IH]; [reflexivity|].
  cbn [List.filter]. rewrite is_off_code_eq.
  rewrite (String.eqb_sym WorkCode.R c), (String.eqb_sym WorkCode.RQ c),
    (String.eqb_sym WorkCode.DT c).
  destruct (String.eqb_spec c WorkCode.R) as [E1|E1];
    destruct (String.eqb_spec c WorkCode.RQ) as [E2|E2];
    destruct (String.eqb_spec c WorkCode.DT) as [E3|E3];
    try (exfalso; unfold WorkCode.R, WorkCode.RQ, WorkCode.DT in *; congruence);
    cbn [orb length]; lia.
Qed.

(** Extra (printed_rest_count): the R + RQ count printed by main.print_schedule plus the DT count equals the member day-off quota. *)
Theorem printed_rest_count (inp : InputData) (a : assignment) (m : nat) :
  accepted a (build_model inp) = true -> (m < num_members inp)%nat ->
  codes_in_vocabulary inp = true ->
  let '(_, _, _, rest) := print_stats (out_days inp a m) in
  Z.of_nat (rest + list_count (out_days inp a m) WorkCode.DT) = target_dayoff inp m.
Proof.
  intros Ha Hm Hv. cbn [print_stats]. fold WorkCode.R WorkCode.RQ.
  rewrite <- off_filter_counts. rewrite out_days_eq by exact Hm.
  rewrite length_filter_map_seq. rewrite <- (off_flags_sum a inp m Ha Hm).
  apply zsum_map_ext. intros d Hd. apply in_seq in Hd. apply off_point; auto; lia.
Qed.

Lemma window_count_zero flag a m d : window_count flag a m d 0 = flag a m (d + 0)%nat.
Proof. unfold window_count. change (Z.to_nat (0 + 1)) with 1%nat. cbn [seq map]. rewrite zsum_cons, zsum_nil. lia. Qed.

Lemma zero_limit_forbids (inp : InputData) (a : assignment) (m d : nat) :
  accepted a (build_model inp) = true ->
  (m < num_members inp)%nat -> (d < num_days inp)%nat ->
  let lim := continuousWorkLimit (option_of inp) in
  (cwl_am lim = 0 -> a (shift m d ShiftType.AM) = false) /\
  (cwl_pm lim = 0 ->
     a (shift m d ShiftType.PM_HC) = false /\ a (shift m d ShiftType.PM_IA) = false) /\
  (cwl_total lim = 0 ->
     a (shift m d ShiftType.AM) = false /\ a (shift m d ShiftType.PM_HC) = false /\
     a (shift m d ShiftType.PM_IA) = false).
Proof.
  intros Ha Hm Hd lim. split; [|split]; intros H0.
  - pose proof (window_bound a inp am_flags am_flag (cwl_am lim) m d Ha
      (fun c Hc => window_in_continuous inp m 0 c Hm (or_introl (conj eq_refl Hc)))
      (fun m' d' => eval_lvar a _) ltac:(lia)) as H.
    rewrite H0, window_count_zero, Nat.add_0_r in H. unfold am_flag in H.
    destruct (a _); cbn in H; [lia|reflexivity].
  - pose proof (window_bound a inp pm_flags pm_flag (cwl_pm lim) m d Ha
      (fun c Hc => window_in_continuous inp m 1 c Hm (or_intror (or_introl (conj eq_refl Hc))))
      ltac:(intros m' d'; unfold pm_flags, pm_flag; rewrite eval_ladd, !eval_lvar; reflexivity)
      ltac:(lia)) as H.
    rewrite H0, window_count_zero, Nat.add_0_r in H. unfold pm_flag in H.
    destruct (a (shift m d ShiftType.PM_HC)), (a (shift m d ShiftType.PM_IA)); cbn in H;
      split; reflexivity || lia.
  - pose proof (window_bound a inp total_flags total_flag (cwl_total lim) m d Ha
      (fun c Hc => window_in_continuous inp m 2 c Hm (or_intror (or_intror (conj eq_refl Hc))))
      ltac:(intros m' d'; unfold total_flags, total_flag; rewrite !eval_ladd, !eval_lvar; reflexivity)
      ltac:(lia)) as H.
    rewrite H0, window_count_zero, Nat.add_0_r in H. unfold total_flag in H.
    destruct (a (shift m d ShiftType.AM)), (a (shift m d ShiftType.PM_HC)),
      (a (shift m d ShiftType.PM_IA)); cbn in H; repeat split; reflexivity || lia.
Qed.

Lemma zsum_all_zero (f : nat -> Z) l : (forall x, In x l -> f x = 0) -> zsum (map f l) = 0.
Proof.
  induction l as [|x l IH]; intros H; cbn [map]; rewrite ?zsum_cons, ?zsum_nil; [reflexivity|].
  rewrite H by (left; reflexivity). rewrite IH; [reflexivity|]. intros y Hy. apply H. right. exact Hy.
Qed.

Lemma no_am_infeasible inp a d :
  accepted a (build_model inp) = true -> (d < num_days inp)%nat ->
  (forall m, (m < num_members inp)%nat -> a (shift m d ShiftType.AM) = false) -> False.
Proof.
  intros Ha Hd Hno.
  assert (H : holds a (am_staffing_constraint inp d) = true)
    by (apply (accepted_hard a inp); [exact Ha|];
        pose proof (proj1 (in_daily_staffing inp d Hd)); in_hard).
  assert (Ht : eval a (am_total inp d) = 0).
  { rewrite eval_am_total. apply zsum_all_zero. intros m Hm. apply in_seq in Hm.
    rewrite Hno by lia. reflexivity. }
  pose proof (zt_count_eq inp d) as Hz.
  assert (Hz0 : 0 <= p1 (day_counts inp d)) by (rewrite Hz; apply nonneg_ind_sum; intros; apply zt_ind_nonneg).
  unfold am_staffing_constraint in H. destruct (day_counts inp d) as [[[zt z] h] hc].
  cbn [p1] in Hz0.
  destruct (is_reduced_day inp d), (0 <? zt); cbn [holds] in H; apply Z.eqb_eq in H;
    rewrite ?eval_doubled, Ht in H; lia.
Qed.

Lemma no_pm_infeasible inp a d :
  accepted a (build_model inp) = true -> (d < num_days inp)%nat ->
  (forall m, (m < num_members inp)%nat ->
     a (shift m d ShiftType.PM_HC) = false /\ a (shift m d ShiftType.PM_IA) = false) -> False.
Proof.
  intros Ha Hd Hno.
  assert (H : holds a (pm_staffing_constraint inp d) = true)
    by (apply (accepted_hard a inp); [exact Ha|];
        pose proof (proj2 (in_daily_staffing inp d Hd)); in_hard).
  assert (Ht : eval a (pm_total inp d) = 0).
  { rewrite eval_pm_total. apply zsum_all_zero. intros m Hm. apply in_seq in Hm.
    destruct (Hno m ltac:(lia)) as [-> ->]. reflexivity. }
  pose proof (hct_iat_count_eq inp d) as Hz.
  assert (Hz0 : 0 <= p3 (day_counts inp d))
    by (rewrite Hz; apply nonneg_ind_sum; intros; apply half_pm_ind_nonneg).
  unfold pm_staffing_constraint in H. destruct (day_counts inp d) as [[[zt z] h] hc].
  cbn [p3] in Hz0.
  destruct (is_reduced_day inp d), (0 <? h); cbn [holds] in H; apply Z.eqb_eq in H;
    rewrite ?eval_doubled, Ht in H; lia.
Qed.

(** Extra (zero_limit_infeasible): a zero AM, PM or total run-length limit makes every assignment violate the model. *)
Theorem zero_limit_infeasible (inp : InputData) (a : assignment) :
  let lim := continuousWorkLimit (option_of inp) in
  (0 < num_days inp)%nat ->
  cwl_am lim = 0 \/ cwl_pm lim = 0 \/ cwl_total lim = 0 ->
  accepted a (build_model inp) = false.
Proof.
  intros lim Hd Hz. destruct (accepted a (build_model inp)) eqn:Ha; [exfalso|reflexivity].
  destruct Hz as [Hz|[Hz|Hz]].
  - apply (no_am_infeasible inp a 0 Ha Hd). intros m Hm.
    exact (proj1 (zero_limit_forbids inp a m 0 Ha Hm Hd) Hz).
  - apply (no_pm_infeasible inp a 0 Ha Hd). intros m Hm.
    exact (proj1 (proj2 (zero_limit_forbids inp a m 0 Ha Hm Hd)) Hz).
  - apply (no_am_infeasible inp a 0 Ha Hd). intros m Hm.
    exact (proj1 (proj2 (proj2 (zero_limit_forbids inp a m 0 Ha Hm Hd)) Hz)).
Qed.


(* ------------------------------------------------------------------ *)
(** ** Witnesses and counterexamples on the February 2023 roster *)

Import Examples.

Lemma daily_staffing_weighted_totals_witness :
  accepted aW (build_model inpW) = true /\ (0 < num_days inpW)%nat /\
  am_weighted2 inpW aW 0%nat = 2 * am_target inpW 0%nat /\
  pm_weighted2 inpW aW 0%nat = 2 * pm_target inpW 0%nat.
Proof.
  assert (Hd : (0 < num_days inpW)%nat) by (vm_compute; lia).
  split; [vm_compute; reflexivity|]. split; [exact Hd|].
  apply (proj2 (proj2 (daily_staffing_weighted_totals inpW)) aW 0%nat); [|exact Hd].
  vm_compute; reflexivity.
Defined.

Lemma dayoff_quota_exact_witness :
  Z.of_nat (length (List.filter is_off_code (out_days inpW aW 3%nat))) = 7.
Proof.
  apply (dayoff_quota_exact inpW aW 3%nat 7).
  - vm_compute; reflexivity.
  - vm_compute; lia.
  - vm_compute; reflexivity.
  - vm_compute; reflexivity.
Defined.

(** C3 refuted: the input with code "X" is accepted and [generate]
    reports success, with "X" copied to the output. *)
Lemma unknown_code_not_rejected :
  cell inpX 0%nat 3%nat = Some "X" /\ ~ In "X" vocabulary /\
  pin_code 0%nat 3%nat "X" = [] /\
  accepted aW (build_model inpX) = true /\
  generate inpX solverW (fun _ => 0) 0 1
    = SingleResult "success" (ex_schedule (extract_solution inpX aW)) /\
  nth 3 (out_days inpX aW 0%nat) "" = "X".
Proof.
  split; [vm_compute; reflexivity|]. split; [rewrite <- str_in_In; vm_compute; discriminate|].
  split; [vm_compute; reflexivity|]. split; [vm_compute; reflexivity|].
  split; [vm_compute; reflexivity|]. vm_compute; reflexivity.
Qed.

Lemma unknown_code_passes_through_witness :
  pin_code 0%nat 3%nat "X" = [] /\ extract_cell inpX aW 0%nat 3%nat = "X" /\
  generate inpX solverW (fun _ => 0) 0 1
    = SingleResult "success" (ex_schedule (extract_solution inpX aW)) /\
  nth 3 (days (nth 0 (ex_schedule (extract_solution inpX aW)) default_member)) "" = "X" /\
  exists schedules,
    generate inpX solverW (fun _ => 0) 0 2
      = MultiResult "success" schedules (length schedules) 0 /\
    (1 <= length schedules)%nat /\
    Forall (fun sch => nth 3 (days (nth 0 sch default_member)) "" = "X") schedules.
Proof.
  destruct (unknown_code_passes_through inpX 0%nat 3%nat "X") as [H1 [H2 [H3 H4]]].
  - vm_compute; reflexivity.
  - discriminate.
  - rewrite <- str_in_In; vm_compute; discriminate.
  - destruct (H3 solverW (fun _ => 0) 0 OPTIMAL aW eq_refl eq_refl) as [Hg Hn].
    split; [exact H1|]. split; [apply H2|]. split; [exact Hg|]. split; [apply Hn; vm_compute; lia|].
    destruct (H4 solverW (fun _ => 0) 0 2) as [schs [Hm [Hl Hf]]].
    + discriminate.
    + exists 0%nat. split; [vm_compute; lia|]. split; [|reflexivity].
      intros j Hj. replace j with 0%nat by lia. reflexivity.
    + exists schs. split; [exact Hm|]. split; [exact Hl|]. apply Hf. vm_compute. lia.
Defined.

(** C4 refuted: member A's day-off sum contains the OFF flag of the
    pre-filled RQ cell of day 3. *)
Lemma dayoff_sum_includes_fixed_cell :
  cell inpW 0%nat 3%nat = Some "RQ" /\
  In (CEq (off_count inpW 0%nat) 7) (dayoff_constraints inpW) /\
  In (1, shift 0%nat 3%nat ShiftType.OFF) (terms (off_count inpW 0%nat)).
Proof.
  split; [vm_compute; reflexivity|]. split.
  - vm_compute. left. reflexivity.
  - vm_compute. right; right; right. left. reflexivity.
Qed.

Lemma dayoff_sum_all_days_witness :
  In (1, shift 0%nat 3%nat ShiftType.OFF) (terms (off_count inpW 0%nat)) /\
  zsum (map (fun d => Z.b2z (aW (shift 0%nat d ShiftType.OFF))) (seq 0 (num_days inpW)))
    = target_dayoff inpW 0%nat /\ aW (shift 0%nat 3%nat ShiftType.OFF) = true.
Proof.
  assert (Hm : (0 < num_members inpW)%nat) by (vm_compute; lia).
  destruct (dayoff_sum_all_days inpW aW 0%nat Hm) as [Hin Hacc].
  split; [apply Hin; vm_compute; lia|].
  destruct Hacc as [Hs Hfix]; [vm_compute; reflexivity|].
  split; [exact Hs|]. apply (Hfix 3%nat "RQ"); vm_compute; [lia|reflexivity|reflexivity].
Defined.

Lemma pm_to_am_forbidden_witness :
  Z.b2z (aW (shift 0%nat 1%nat ShiftType.PM_HC)) + Z.b2z (aW (shift 0%nat 1%nat ShiftType.PM_IA))
    + Z.b2z (aW (shift 0%nat 2%nat ShiftType.AM)) <= 1.
Proof.
  apply (proj2 (pm_to_am_forbidden inpW) aW 0%nat 1%nat); vm_compute; [reflexivity|lia|lia].
Defined.

Lemma continuous_work_windows_witness :
  window_count am_flag aW 0%nat 0%nat 1 <= 1 /\ window_count pm_flag aW 0%nat 0%nat 2 <= 2 /\
  window_count total_flag aW 0%nat 0%nat 3 <= 3.
Proof.
  destruct (proj2 (continuous_work_windows inpW) aW 0%nat) as [H1 [H2 H3]];
    [vm_compute; reflexivity|vm_compute; lia|].
  split; [apply H1|split; [apply H2|apply H3]]; vm_compute; discriminate.
Defined.

Lemma solve_multiple_graceful_witness :
  exists schedules,
    generate inpW solverW (fun _ => 0) 0 5
      = MultiResult "success" schedules (length schedules) 0 /\
    (1 <= length schedules)%nat /\ Z.of_nat (length schedules) <= 5.
Proof.
  pose proof (solve_multiple_graceful inpW solverW (fun _ => 0) 0 5 ltac:(discriminate)) as H.
  cbv zeta in H. destruct H as [H _]. apply H.
  exists 0%nat. split; [vm_compute; lia|]. split; [intros j _; lia|]. reflexivity.
Defined.

Lemma missing_quota_means_no_off_witness :
  accepted aW (build_model inpM) = false.
Proof.
  apply (proj2 (missing_quota_means_no_off inpM 3%nat ltac:(vm_compute; lia) ltac:(vm_compute; reflexivity))
           0%nat "R"); vm_compute; [lia|reflexivity|reflexivity].
Defined.

Lemma extracted_cells_defined_witness :
  decided_code aW 1%nat 1%nat <> "".
Proof.
  apply (proj1 (extracted_cells_defined inpW aW ltac:(vm_compute; reflexivity) 1 1
                 ltac:(vm_compute; lia) ltac:(vm_compute; lia))).
Defined.

(* ------------------------------------------------------------------ *)
(** ** Witnesses of the further properties *)

(** [days_in_month_table] at a concrete input. *)
Lemma days_in_month_table_witness : num_days inpW = 28%nat.
Proof.
  assert (Hy : 1 <= targetYear (option_of inpW) <= 9998) by (cbn; lia).
  exact (proj2 (proj2 (days_in_month_table inpW Hy)) eq_refl).
Defined.

(** [day_of_week_step] at a concrete input. *)
Lemma day_of_week_step_witness :
  0 <= get_day_of_week inpW 0 < 7 /\
  get_day_of_week inpW 1 = (get_day_of_week inpW 0 + 1) mod 7.
Proof. apply (day_of_week_step inpW 0); [cbn; lia|cbn; lia|vm_compute; lia]. Defined.

(** [reduced_day_weekly] at a concrete input. *)
Lemma reduced_day_weekly_witness :
  is_reduced_day inpR 4 = true /\ is_reduced_day inpR (4 + 7) = is_reduced_day inpR 4.
Proof.
  split; [vm_compute; reflexivity|].
  apply (reduced_day_weekly inpR 4); [cbn; lia|cbn; lia|vm_compute; lia].
Defined.

(** [rq_neighbours_not_off] at a concrete input. *)
Lemma rq_neighbours_not_off_witness :
  In (extract_cell inpW aW 0 2) [WorkCode.Z; WorkCode.HC; WorkCode.IA] /\
  In (extract_cell inpW aW 0 4) [WorkCode.Z; WorkCode.HC; WorkCode.IA].
Proof.
  destruct (rq_neighbours_not_off inpW aW 0 3) as [H1 H2];
    [vm_compute; reflexivity|vm_compute; lia|vm_compute; lia|vm_compute; reflexivity|].
  split; [apply H1; [lia|vm_compute; reflexivity]|apply H2; [vm_compute; lia|]].
  right. vm_compute. reflexivity.
Defined.

(** [consecutive_off_indicator] at a concrete input. *)
Lemma consecutive_off_indicator_witness :
  aW (consecutive_off 0 2) = aW (shift 0 2 ShiftType.OFF) && aW (shift 0 3 ShiftType.OFF).
Proof.
  apply (consecutive_off_indicator inpW aW 0 2);
    [reflexivity|vm_compute; reflexivity|vm_compute; lia|vm_compute; lia].
Defined.

(** [objective_counts_consecutive_off] at a concrete input. *)
Lemma objective_counts_consecutive_off_witness :
  exists e, objective (build_model inpW) = Some e /\
            eval aW e = -5 * consecutive_off_count inpW aW.
Proof.
  destruct (objective (build_model inpW)) as [e|] eqn:E; [|vm_compute in E; discriminate].
  exists e. split; [reflexivity|].
  apply (objective_counts_consecutive_off inpW aW e); [vm_compute; reflexivity|exact E].
Defined.

(** [nonpositive_solutions_error] at a concrete input. *)
Lemma nonpositive_solutions_error_witness :
  generate inpW solverW (fun _ => 0) 123 0
  = ErrorResult "error" "cannot generate a schedule. (search time: 1.23s)".
Proof.
  rewrite (nonpositive_solutions_error inpW 0 ltac:(lia) solverW (fun _ => 0) 123).
  vm_compute. reflexivity.
Defined.

(** [solve_multiple_time_caps] at a concrete input. *)
Lemma solve_multiple_time_caps_witness :
  generate inpW solverW (fun _ => 0) 0 3 = generate inpW solverCap (fun _ => 0) 0 3.
Proof.
  apply (solve_multiple_time_caps inpW solverW solverCap (fun _ => 0) 0 3); [lia|].
  intros i t _ Ht _. unfold solverW, solverCap.
  replace (t <=? 5000) with true by (symmetry; apply Z.leb_le; lia). reflexivity.
Defined.

(** [predefined_pins_in_month] at a concrete input. *)
Lemma predefined_pins_in_month_witness :
  exists m d code s, (m < num_members inpW)%nat /\ (d < num_days inpW)%nat /\
    cell inpW m d = Some code /\ code <> WorkCode.EMPTY /\ code_category code = Some s /\
    CEq (lvar (shift 3 0 ShiftType.OFF)) 1 = CEq (lvar (shift m d s)) 1.
Proof.
  apply (predefined_pins_in_month inpW (CEq (lvar (shift 3 0 ShiftType.OFF)) 1)).
  vm_compute. repeat (first [left; reflexivity | right]).
Defined.

(** [printed_rest_count] at a concrete input. *)
Lemma printed_rest_count_witness :
  let '(_, _, _, rest) := print_stats (out_days inpW aW 2) in
  Z.of_nat (rest + list_count (out_days inpW aW 2) WorkCode.DT) = target_dayoff inpW 2.
Proof.
  apply (printed_rest_count inpW aW 2);
    [vm_compute; reflexivity|vm_compute; lia|vm_compute; reflexivity].
Defined.

(** [zero_limit_infeasible] at a concrete input. *)
Lemma zero_limit_infeasible_witness : accepted aW (build_model inpZ) = false.
Proof.
  apply (zero_limit_infeasible inpZ aW); [vm_compute; lia|left; reflexivity].
Defined.
